(** * The incremental state tracker of epdoc/strava

    A shallow embedding of [packages/strava/src/state/state.ts] (class
    [StateFile]) and of the date-range selection of
    [packages/strava/src/cmd/pdf/cmd.ts] (class [PdfCmd]), together with the
    properties the specification states about them.

    The embedding keeps the shape of the TypeScript source: the methods of
    [StateFile] are computations in a small state-and-exception monad over the
    object's private fields and the outside world (the disk, a script of I/O
    faults, the logger), [try]/[catch] is a combinator of that monad, and
    JavaScript values read from the state file are kept as untyped JSON, as
    the unchecked cast [rawState as State.UserState] leaves them. *)

From Stdlib Require Import ZArith String Ascii List Floats OrdersEx Lia.
From stdpp Require Import gmap strings list fin_maps.

Set Warnings "-register-all".
Local Open Scope string_scope.
Local Open Scope Z_scope.

(** ** JavaScript values *)

(** The values [JSON.parse] produces.  A JavaScript array is an object: besides
    its elements it can carry named properties ([named]), which [JSON.parse]
    never creates and [JSON.stringify] never writes.  A number is an IEEE 754
    binary64. *)
Inductive json : Type :=
  | JNull
  | JBool (b : bool)
  | JNum (x : float)
  | JStr (s : string)
  | JArr (elems : list json) (named : gmap string json)
  | JObj (props : gmap string json).

(** An optional value stands for a JavaScript value that may be [undefined]. *)
Definition truthy (v : option json) : bool :=
  match v with
  | None => false
  | Some JNull => false
  | Some (JBool b) => b
  | Some (JNum x) => negb (PrimFloat.is_zero x || PrimFloat.is_nan x)
  | Some (JStr s) => negb (String.eqb s "")
  | Some (JArr _ _) => true
  | Some (JObj _) => true
  end.

(** Property read [v?.k] of an optional chain. *)
Definition opt_get (v : option json) (k : string) : option json :=
  match v with
  | Some (JObj props) => props !! k
  | Some (JArr _ named) => named !! k
  | _ => None
  end.

(** A thrown [Error]: its constructor name and its [message]. *)
Record JsError : Type := mkError { err_name : string; err_message : string }.

Definition TypeError (msg : string) : JsError := mkError "TypeError" msg.
Definition RangeError (msg : string) : JsError := mkError "RangeError" msg.
Definition SyntaxError (msg : string) : JsError := mkError "SyntaxError" msg.
Definition NotFound (msg : string) : JsError := mkError "NotFound" msg.

(** Property write [v.k = x] in strict mode (every ES module is strict):
    objects and arrays take the property, a primitive raises [TypeError]. *)
Definition prop_set (v : json) (k : string) (x : json) : JsError + json :=
  match v with
  | JObj props => inr (JObj (<[k := x]> props))
  | JArr elems named => inr (JArr elems (<[k := x]> named))
  | _ => inl (TypeError ("Cannot create property '" ++ k ++ "'"))
  end.

(** The values [JSON.stringify] writes back unchanged: no named property on
    an array, and no number that is printed as another one ([NaN] and the
    infinities are printed as [null], negative zero as [0]). *)
Inductive serializable : json -> Prop :=
  | ser_null : serializable JNull
  | ser_bool b : serializable (JBool b)
  | ser_num x :
      PrimFloat.is_finite x = true ->
      PrimFloat.classify x <> NZero ->
      serializable (JNum x)
  | ser_str s : serializable (JStr s)
  | ser_arr elems :
      (forall i v, elems !! i = Some v -> serializable v) ->
      serializable (JArr elems ∅)
  | ser_obj props :
      (forall k v, props !! k = Some v -> serializable v) ->
      serializable (JObj props).

(** [JSON.stringify(v, null, 2)] and [JSON.parse] belong to the runtime; the
    text they exchange is kept abstract. *)
Class JsonCodec : Type := {
  text : Type;
  JSON_stringify : json -> text;
  JSON_parse : text -> option json;
}.

(** ** The outside world *)

Inductive Level : Type := Debug | Info | Warn | LogError.

(** One emitted log line: its level and the pieces chained before [emit]. *)
Record LogEntry : Type := mkLog { log_level : Level; log_parts : list string }.

(** The calls made on the [FS.File] of the state file and on its writer. *)
Inductive FileOp : Type :=
  | OpExists | OpReadJson | OpWriter | OpWrite | OpClose.

(** The world a command runs in: the files on disk by path, the faults the
    coming file operations will meet (one entry per operation, in order;
    [Some e] makes the operation raise [e], a missing entry is a success),
    the file operations performed so far (latest first) and the log (latest
    first). *)
Record World `{JsonCodec} : Type := mkWorld {
  disk : gmap string text;
  faults : list (option JsError);
  trace : list FileOp;
  log : list LogEntry;
}.
Arguments mkWorld {_} disk faults trace log.

Inductive outcome (A : Type) : Type :=
  | Return (a : A)
  | Throw (e : JsError).
Arguments Return {A} a.
Arguments Throw {A} e.

(** ** The state file object and its method monad *)

Definition ISODate : Type := string.

(** [type OutputType = 'kml' | 'pdf'] *)
Inductive OutputType : Type := kml | pdf.

Definition key (type : OutputType) : string :=
  match type with kml => "kml" | pdf => "pdf" end.

(** The private fields of [StateFile]: [#file] (its path) and [#state].  The
    state is the object [load] read, whatever its members are. *)
Record StateFile : Type := mkStateFile {
  file : string;
  state : gmap string json;
}.

(** [new StateFile(file)] *)
Definition StateFile_new (path : string) : StateFile := mkStateFile path ∅.

(** Modelled from the spec: the class [Activity] is not part of the sources
    at hand.  An activity record carries a local start timestamp,
    [startDatetimeLocal], the only field the tracker reads; [id] tells
    activities with equal timestamps apart. *)
Record Activity : Type := mkActivity {
  id : Z;
  startDatetimeLocal : ISODate;
}.

Section Methods.
Context `{JsonCodec}.

(** A method body: it reads and writes the fields of [this] and the world,
    and returns or throws. *)
Definition M (A : Type) : Type :=
  StateFile -> World -> outcome A * StateFile * World.

Definition ret {A} (a : A) : M A := fun this w => (Return a, this, w).
Definition throw {A} (e : JsError) : M A := fun this w => (Throw e, this, w).
Definition bind {A B} (m : M A) (k : A -> M B) : M B :=
  fun this w =>
    match m this w with
    | (Return a, this', w') => k a this' w'
    | (Throw e, this', w') => (Throw e, this', w')
    end.

(** [try { body } catch (err) { handler }] *)
Definition try_catch {A} (body : M A) (handler : JsError -> M A) : M A :=
  fun this w =>
    match body this w with
    | (Return a, this', w') => (Return a, this', w')
    | (Throw e, this', w') => handler e this' w'
    end.

Definition get_state : M (gmap string json) :=
  fun this w => (Return (state this), this, w).
Definition set_state (s : gmap string json) : M unit :=
  fun this w => (Return tt, mkStateFile (file this) s, w).
Definition get_file : M string :=
  fun this w => (Return (file this), this, w).

(** [ctx.log.<level>.text(..)...emit()] *)
Definition emit (l : Level) (parts : list string) : M unit :=
  fun this w =>
    (Return tt, this,
     mkWorld (disk w) (faults w) (trace w) (mkLog l parts :: log w)).

(** The fault the [n]-th coming file operation will meet, if any. *)
Definition fault_at (n : nat) (w : World) : option JsError :=
  match faults w !! n with
  | Some (Some e) => Some e
  | _ => None
  end.

(** No fault for the [n] coming file operations. *)
Definition quiet (n : nat) (w : World) : bool :=
  forallb (fun f => match f with Some _ => false | None => true end)
          (take n (faults w)).

(** A file operation: it is recorded, takes the next entry of the fault
    script, and either raises that fault or runs. *)
Definition file_op {A} (op : FileOp)
    (run : gmap string text -> outcome A * gmap string text) : M A :=
  fun this w =>
    let w' := mkWorld (disk w) (tail (faults w)) (op :: trace w) (log w) in
    match fault_at 0 w with
    | Some e => (Throw e, this, w')
    | None =>
        let '(r, d) := run (disk w) in
        (r, this, mkWorld d (faults w') (trace w') (log w'))
    end.
End Methods.

Notation "'let*' x ':=' m 'in' k" := (bind m (fun x => k))
  (at level 10, x name, m at level 100, k at level 200).
Notation "'do' m 'then' k" := (bind m (fun _ => k))
  (at level 10, m at level 100, k at level 200).

(** ** The file of the state store *)

Section FileLibrary.
Context `{JsonCodec}.

(** Modelled from the spec: the file I/O primitives ([FS.File] of
    [@epdoc/fs]) are external collaborators.  A file is its path; it exists
    when the disk has an entry for the path; [readJson] reads the text and
    parses it, raising when the file is missing or the text is not JSON; a
    writer replaces the content of its file by what is written. *)
Definition File_exists (path : string) : M bool :=
  file_op OpExists (fun d => (Return (bool_decide (is_Some (d !! path))), d)).

Definition File_readJson (path : string) : M json :=
  file_op OpReadJson (fun d =>
    match d !! path with
    | None => (Throw (NotFound path), d)
    | Some t =>
        match JSON_parse t with
        | Some v => (Return v, d)
        | None => (Throw (SyntaxError "Unexpected token in JSON"), d)
        end
    end).

(** A writer is the path it writes to. *)
Definition File_writer (path : string) : M string :=
  file_op OpWriter (fun d => (Return path, d)).

Definition Writer_write (writer : string) (content : text) : M unit :=
  file_op OpWrite (fun d => (Return tt, <[writer := content]> d)).

Definition Writer_close (writer : string) : M unit :=
  file_op OpClose (fun d => (Return tt, d)).
End FileLibrary.

(** Modelled from the spec: [_.isDict] of [@epdoc/type], the type guard for
    "a valid keyed record"; a JSON array, [null] and the primitives are not
    one.  As a type guard it gives the value back at the narrowed type. *)
Definition isDict (val : json) : option (gmap string json) :=
  match val with
  | JObj props => Some props
  | _ => None
  end.

(** ** [StateFile] *)

Section StateFileMethods.
Context `{JsonCodec}.

(** [async load(ctx)] *)
Definition load : M unit :=
  try_catch
    (let* path := get_file in
     let* present := File_exists path in
     if present then
       let* rawState := File_readJson path in
       match isDict rawState with
       | Some dict =>
           do set_state dict then
           emit Debug ["Loaded state file"; path]
       | None =>
           do emit Debug ["State file is invalid, initializing empty state"] then
           set_state ∅
       end
     else
       do emit Debug ["State file does not exist, initializing empty state"] then
       set_state ∅)
    (fun err =>
       let errorMsg := err_message err in
       do emit Warn ["Failed to load state file, using empty state"; errorMsg] then
       set_state ∅).

(** [async save(ctx)] *)
Definition save : M unit :=
  try_catch
    (let* path := get_file in
     let* writer := File_writer path in
     try_catch
       (let* st := get_state in
        let content := JSON_stringify (JObj st) in
        do Writer_write writer content then
        do Writer_close writer then
        emit Debug ["Saved state file"; path])
       (fun err =>
          do Writer_close writer then
          throw err))
    (fun err =>
       let errorMsg := err_message err in
       do emit LogError ["Failed to save state file: " ++ errorMsg] then
       throw err).

(** [getLastUpdated(type)]: [this.#state[type]?.lastUpdated] *)
Definition getLastUpdated (type : OutputType) (this : StateFile) : option json :=
  opt_get (state this !! key type) "lastUpdated".

(** One turn of the loop that looks for the most recent activity; [a > b]
    on strings compares them character by character. *)
Definition mostRecent_step (mostRecent : option Activity) (activity : Activity)
    : option Activity :=
  match mostRecent with
  | None => Some activity
  | Some m =>
      if String.ltb (startDatetimeLocal m) (startDatetimeLocal activity)
      then Some activity
      else Some m
  end.

Definition find_mostRecent (activities : list Activity) : option Activity :=
  fold_left mostRecent_step activities None.

(** [this.#state[type]!.lastUpdated = value], on the state as a value. *)
Definition set_lastUpdated (type : OutputType) (value : ISODate) : M unit :=
  let* st := get_state in
  match st !! key type with
  | Some entry =>
      match prop_set entry "lastUpdated" (JStr value) with
      | inr entry' => set_state (<[key type := entry']> st)
      | inl e => throw e
      end
  | None => throw (TypeError "Cannot set properties of undefined")
  end.

(** [async updateLastUpdated(ctx, type, activities)] *)
Definition updateLastUpdated (type : OutputType) (activities : list Activity)
    : M unit :=
  if (length activities =? 0)%nat then
    emit Debug ["No activities to update state from"]
  else
    match find_mostRecent activities with
    | Some mostRecent =>
        let* st := get_state in
        do (if negb (truthy (st !! key type))
            then set_state (<[key type := JObj ∅]> st)
            else ret tt) then
        do set_lastUpdated type (startDatetimeLocal mostRecent) then
        do emit Info ["Updated"; key type; "last updated to";
                      startDatetimeLocal mostRecent] then
        save
    | None => ret tt
    end.
End StateFileMethods.

(** ** The [Date] of the runtime

    [getDateRangeFrom] and the [pdf] command hand the stored timestamp to
    [new Date(..)], and [getDateRangeFrom] reads the date back with
    [toISOString].  Time values are integers of milliseconds since the epoch;
    [None] is the time value [NaN] of an invalid date.  The definitions follow
    the ECMAScript abstract operations of the same names. *)

Definition msPerDay : Z := 86400000.
Definition msPerHour : Z := 3600000.
Definition msPerMinute : Z := 60000.
Definition msPerSecond : Z := 1000.

Definition Day (t : Z) : Z := t / msPerDay.
Definition TimeWithinDay (t : Z) : Z := t mod msPerDay.

Definition DaysInYear (y : Z) : Z :=
  if negb (y mod 4 =? 0) then 365
  else if negb (y mod 100 =? 0) then 366
  else if negb (y mod 400 =? 0) then 365
  else 366.

Definition DayFromYear (y : Z) : Z :=
  365 * (y - 1970) + (y - 1969) / 4 - (y - 1901) / 100 + (y - 1601) / 400.

Definition TimeFromYear (y : Z) : Z := msPerDay * DayFromYear y.

(** The largest [y] with [TimeFromYear y <= t], searched upwards from a year
    that is not after it. *)
Fixpoint year_search (fuel : nat) (y t : Z) : Z :=
  match fuel with
  | O => y
  | S fuel' =>
      if TimeFromYear (y + 1) <=? t then year_search fuel' (y + 1) t else y
  end.

Definition YearFromTime (t : Z) : Z :=
  let d := Day t in
  let y0 := 1970 + (if 0 <=? d then d / 366 else d / 365) in
  year_search (Z.to_nat (Z.abs d / 100000 + 2)) y0 t.

Definition InLeapYear (t : Z) : Z :=
  if DaysInYear (YearFromTime t) =? 366 then 1 else 0.

Definition DayWithinYear (t : Z) : Z := Day t - DayFromYear (YearFromTime t).

Definition MonthFromTime (t : Z) : Z :=
  let d := DayWithinYear t in
  let leap := InLeapYear t in
  if d <? 31 then 0
  else if d <? 59 + leap then 1
  else if d <? 90 + leap then 2
  else if d <? 120 + leap then 3
  else if d <? 151 + leap then 4
  else if d <? 181 + leap then 5
  else if d <? 212 + leap then 6
  else if d <? 243 + leap then 7
  else if d <? 273 + leap then 8
  else if d <? 304 + leap then 9
  else if d <? 334 + leap then 10
  else 11.

Definition DateFromTime (t : Z) : Z :=
  let d := DayWithinYear t in
  let leap := InLeapYear t in
  match MonthFromTime t with
  | 0 => d + 1
  | 1 => d - 30
  | 2 => d - 58 - leap
  | 3 => d - 89 - leap
  | 4 => d - 119 - leap
  | 5 => d - 150 - leap
  | 6 => d - 180 - leap
  | 7 => d - 211 - leap
  | 8 => d - 242 - leap
  | 9 => d - 272 - leap
  | 10 => d - 303 - leap
  | _ => d - 333 - leap
  end.

Definition HourFromTime (t : Z) : Z := (t / msPerHour) mod 24.
Definition MinFromTime (t : Z) : Z := (t / msPerMinute) mod 60.
Definition SecFromTime (t : Z) : Z := (t / msPerSecond) mod 60.
Definition msFromTime (t : Z) : Z := t mod msPerSecond.

Definition MakeTime (hour min sec ms : Z) : Z :=
  hour * msPerHour + min * msPerMinute + sec * msPerSecond + ms.

(** Number of days of the year [y] before its month [m] (0 to 11). *)
Definition DaysBeforeMonth (y m : Z) : Z :=
  let leap := if DaysInYear y =? 366 then 1 else 0 in
  match m with
  | 0 => 0
  | 1 => 31
  | 2 => 59 + leap
  | 3 => 90 + leap
  | 4 => 120 + leap
  | 5 => 151 + leap
  | 6 => 181 + leap
  | 7 => 212 + leap
  | 8 => 243 + leap
  | 9 => 273 + leap
  | 10 => 304 + leap
  | _ => 334 + leap
  end.

Definition DaysInMonth (y m : Z) : Z :=
  if m =? 11 then 31 else DaysBeforeMonth y (m + 1) - DaysBeforeMonth y m.

Definition MakeDay (year month date : Z) : Z :=
  let ym := year + month / 12 in
  let mn := month mod 12 in
  DayFromYear ym + DaysBeforeMonth ym mn + date - 1.

Definition MakeDate (day time : Z) : Z := day * msPerDay + time.

Definition TimeClip (t : Z) : option Z :=
  if Z.abs t <=? 8640000000000000 then Some t else None.

(** The host's time zone: [LocalTZA t] is the offset of local time from UTC,
    in milliseconds, at the local time value [t]. *)
Class TimeZone : Type := LocalTZA : Z -> Z.

(** [UTC(t)]: the UTC time value of the local time value [t]. *)
Definition UTC `{TimeZone} (t : Z) : Z := t - LocalTZA t.

(** What the runtime does outside the ECMAScript date-time string format is
    implementation-defined ([Date_parse_legacy]), and the conversion of an
    object or array argument of [new Date] to a primitive is not modelled
    ([Date_of_object] is its resulting time value). *)
Class DateFallback : Type := {
  Date_parse_legacy : string -> option Z;
  Date_of_object : json -> option Z;
}.

(** *** Reading the date-time string format *)

Definition digit_of (c : ascii) : option Z :=
  let n := Z.of_N (N_of_ascii c) in
  if (48 <=? n) && (n <=? 57) then Some (n - 48) else None.

(** Exactly [n] decimal digits at the head of [s]. *)
Fixpoint read_digits (n : nat) (acc : Z) (s : string) : option (Z * string) :=
  match n with
  | O => Some (acc, s)
  | S n' =>
      match s with
      | String c s' =>
          match digit_of c with
          | Some d => read_digits n' (acc * 10 + d) s'
          | None => None
          end
      | EmptyString => None
      end
  end.

(** The fields of a string in the format; [f_zone] is the UTC offset in
    minutes, absent when the string has none. *)
Record DateFields : Type := mkFields {
  f_year : Z; f_month : Z; f_day : Z;
  f_time : option (Z * Z * Z * Z);
  f_zone : option Z;
}.

(** [YYYY] or an expanded year [+YYYYYY] / [-YYYYYY] ([-000000] is not a
    year). *)
Definition read_year (s : string) : option (Z * string) :=
  match s with
  | String "+" r => read_digits 6 0 r
  | String "-" r =>
      match read_digits 6 0 r with
      | Some (y, r') => if y =? 0 then None else Some (- y, r')
      | None => None
      end
  | _ => read_digits 4 0 s
  end.

(** [Z], [+HH:mm], [-HH:mm] or nothing, up to the end of the string. *)
Definition read_zone (s : string) : option (option Z) :=
  match s with
  | EmptyString => Some None
  | String "Z" EmptyString => Some (Some 0)
  | String sign r =>
      match read_digits 2 0 r with
      | Some (hh, String ":" r') =>
          match read_digits 2 0 r' with
          | Some (mm, EmptyString) =>
              if (hh <=? 23) && (mm <=? 59) then
                if Ascii.eqb sign "+" then Some (Some (hh * 60 + mm))
                else if Ascii.eqb sign "-" then Some (Some (- (hh * 60 + mm)))
                else None
              else None
          | _ => None
          end
      | _ => None
      end
  end.

(** [.sss] or nothing, then the zone. *)
Definition read_ms_zone (s : string) : option (Z * option Z) :=
  match s with
  | String "." r =>
      match read_digits 3 0 r with
      | Some (ms, r') =>
          match read_zone r' with
          | Some z => Some (ms, z)
          | None => None
          end
      | None => None
      end
  | _ =>
      match read_zone s with
      | Some z => Some (0, z)
      | None => None
      end
  end.

(** [HH:mm], [HH:mm:ss] or [HH:mm:ss.sss], then the zone. *)
Definition read_time (s : string) : option (Z * Z * Z * Z * option Z) :=
  match read_digits 2 0 s with
  | Some (hh, String ":" r) =>
      match read_digits 2 0 r with
      | Some (mm, String ":" r') =>
          match read_digits 2 0 r' with
          | Some (ss, r'') =>
              match read_ms_zone r'' with
              | Some (ms, z) => Some (hh, mm, ss, ms, z)
              | None => None
              end
          | None => None
          end
      | Some (mm, r') =>
          match read_zone r' with
          | Some z => Some (hh, mm, 0, 0, z)
          | None => None
          end
      | None => None
      end
  | _ => None
  end.

(** After the date: the end of the string, or [T] and a time. *)
Definition read_rest (y m d : Z) (s : string) : option DateFields :=
  match s with
  | EmptyString => Some (mkFields y m d None None)
  | String "T" r =>
      match read_time r with
      | Some (hh, mm, ss, ms, z) => Some (mkFields y m d (Some (hh, mm, ss, ms)) z)
      | None => None
      end
  | _ => None
  end.

(** [YYYY], [YYYY-MM] or [YYYY-MM-DD], then the rest. *)
Definition read_fields (s : string) : option DateFields :=
  match read_year s with
  | Some (y, String "-" r) =>
      match read_digits 2 0 r with
      | Some (m, String "-" r') =>
          match read_digits 2 0 r' with
          | Some (d, r'') => read_rest y m d r''
          | None => None
          end
      | Some (m, r') => read_rest y m 1 r'
      | None => None
      end
  | Some (y, r) => read_rest y 1 1 r
  | None => None
  end.

Definition within (lo hi v : Z) : bool := (lo <=? v) && (v <=? hi).

(** The element values the format allows: a month of the year, a day of
    that month, and a time of the day or the end of the day, [24:00:00]. *)
Definition legal_fields (f : DateFields) : bool :=
  within 1 12 (f_month f) &&
  within 1 (DaysInMonth (f_year f) (f_month f - 1)) (f_day f) &&
  match f_time f with
  | None => true
  | Some (hh, mm, ss, ms) =>
      (within 0 23 hh && within 0 59 mm && within 0 59 ss && within 0 999 ms)
      || ((hh =? 24) && (mm =? 0) && (ss =? 0) && (ms =? 0))
  end.

Section DateOperations.
Context `{TimeZone} `{DateFallback}.

(** The time value of the fields: a form without a UTC offset is UTC when
    it is date-only and local time when it has a time. *)
Definition time_of_fields (f : DateFields) : option Z :=
  let day := MakeDay (f_year f) (f_month f - 1) (f_day f) in
  match f_time f with
  | None => TimeClip (MakeDate day 0)
  | Some (hh, mm, ss, ms) =>
      let t := MakeDate day (MakeTime hh mm ss ms) in
      match f_zone f with
      | Some offset => TimeClip (t - offset * msPerMinute)
      | None => TimeClip (UTC t)
      end
  end.

(** [Date.parse(s)] *)
Definition Date_parse (s : string) : option Z :=
  match read_fields s with
  | Some f => if legal_fields f then time_of_fields f else Date_parse_legacy s
  | None => Date_parse_legacy s
  end.

(** The integer part of a binary64 as a time value, [NaN] and the
    infinities giving [NaN]. *)
Definition time_of_number (x : float) : option Z :=
  match Prim2SF x with
  | S754_zero _ => Some 0
  | S754_finite neg m e =>
      let a := if 0 <=? e then Z.pos m * 2 ^ e else Z.pos m / 2 ^ (- e) in
      TimeClip (if neg then - a else a)
  | _ => None
  end.

(** The time value of [new Date(value)]. *)
Definition Date_new (value : json) : option Z :=
  match value with
  | JStr s => Date_parse s
  | JNum x => time_of_number x
  | JBool b => Some (if b then 1 else 0)
  | JNull => Some 0
  | _ => Date_of_object value
  end.
End DateOperations.

(** *** Writing [toISOString] *)

Definition ascii_of_digit (d : Z) : ascii := ascii_of_N (Z.to_N (48 + d mod 10)).

(** The last [width] decimal digits of [n], zero-padded. *)
Fixpoint pad (width : nat) (n : Z) (acc : string) : string :=
  match width with
  | O => acc
  | S width' => pad width' (n / 10) (String (ascii_of_digit n) acc)
  end.

Definition year_string (y : Z) : string :=
  if (0 <=? y) && (y <=? 9999) then pad 4 y ""
  else if 0 <=? y then "+" ++ pad 6 y ""
  else "-" ++ pad 6 (- y) "".

(** [date.toISOString()]: [RangeError] on an invalid date. *)
Definition Date_toISOString (tv : option Z) : JsError + string :=
  match tv with
  | None => inl (RangeError "Invalid time value")
  | Some t =>
      inr (year_string (YearFromTime t) ++ "-" ++ pad 2 (MonthFromTime t + 1) ""
           ++ "-" ++ pad 2 (DateFromTime t) ""
           ++ "T" ++ pad 2 (HourFromTime t) "" ++ ":" ++ pad 2 (MinFromTime t) ""
           ++ ":" ++ pad 2 (SecFromTime t) "" ++ "." ++ pad 3 (msFromTime t) ""
           ++ "Z")
  end.

(** [s.split(sep)[0]]: the part of [s] before the first [sep]. *)
Fixpoint split_head (sep : ascii) (s : string) : string :=
  match s with
  | EmptyString => EmptyString
  | String c s' => if Ascii.eqb c sep then EmptyString else String c (split_head sep s')
  end.

(** [s.replace(/c/g, '')]: [s] without its characters [c]. *)
Fixpoint remove_all (c : ascii) (s : string) : string :=
  match s with
  | EmptyString => EmptyString
  | String c' s' => if Ascii.eqb c' c then remove_all c s' else String c' (remove_all c s')
  end.

(** ** Date ranges *)

(** One range of a [DateRanges]: [{ after?: Date, before?: Date }], a date
    being its time value. *)
Record DateRangeDef : Type := mkRange {
  after : option (option Z);
  before : option (option Z);
}.

(** The date-range library ([@epdoc/daterange]) is an external collaborator:
    its type of ranges, the parser [dateRanges(spec)] of range strings such
    as [20240101-20241231] and [20240101-], the constructor
    [new DateRanges(defs)] and the test [hasRanges()]. *)
Class DateRangeLib : Type := {
  DateRanges : Type;
  dateRanges : string -> DateRanges;
  DateRanges_new : list DateRangeDef -> DateRanges;
  hasRanges : DateRanges -> bool;
}.

Section DateRangeFrom.
Context `{TimeZone} `{DateFallback} `{DateRangeLib}.

(** [getDateRangeFrom(type)] *)
Definition getDateRangeFrom (type : OutputType) (this : StateFile)
    : outcome (option DateRanges) :=
  let lastUpdated := getLastUpdated type this in
  if negb (truthy lastUpdated) then Return None
  else
    match lastUpdated with
    | Some value =>
        let fromDate := Date_new value in
        match Date_toISOString fromDate with
        | inr iso =>
            let dateStr := remove_all "-" (split_head "T" iso) in
            Return (Some (dateRanges (dateStr ++ "-")))
        | inl e => Throw e
        end
    | None => Return None
    end.
End DateRangeFrom.

(** ** The [pdf] command *)

(** [type PdfCmdOpts = { date?: DateRanges; output?: string }] *)
Record PdfCmdOpts `{DateRangeLib} : Type := mkPdfCmdOpts {
  date : option DateRanges;
  output : option string;
}.
Arguments mkPdfCmdOpts {_} date output.

(** [BikeLog.Opts], the options handed to [ctx.app.getPdf]. *)
Record BikeLogOpts `{DateRangeLib} : Type := mkBikeLogOpts {
  bl_output : string;
  bl_date : DateRanges;
}.
Arguments mkBikeLogOpts {_} bl_output bl_date.

(** Modelled from the spec: the application object [ctx.app] is not part of
    the sources at hand.  It exposes the tracker's [getLastUpdated(channel)]
    of the state file it loaded, and the [formsDataFile] of the user
    settings. *)
Record App : Type := mkApp {
  app_stateFile : StateFile;
  app_formsDataFile : option string;
}.

Definition App_getLastUpdated (app : App) (type : OutputType) : option json :=
  getLastUpdated type (app_stateFile app).

(** How the action of the command ends: it calls [ctx.app.getPdf] with the
    options it built, or leaves the process with [Deno.exit(code)]. *)
Inductive ActionEnd `{DateRangeLib} : Type :=
  | GetPdf (pdfOpts : BikeLogOpts)
  | Exit (code : Z).

(** A string option that is [undefined] or empty is falsy. *)
Definition nonempty (s : option string) : option string :=
  match s with
  | Some v => if String.eqb v "" then None else Some v
  | None => None
  end.

Section PdfCmd.
Context `{TimeZone} `{DateFallback} `{DateRangeLib}.

(** [opts.date && opts.date.hasRanges()], giving the ranges when it holds. *)
Definition usable_date (opts : PdfCmdOpts) : option DateRanges :=
  match date opts with
  | Some d => if hasRanges d then Some d else None
  | None => None
  end.

(** The date ranges of the run: those of the command line when it has
    some, otherwise one range from the stored timestamp; without either the
    command leaves with exit code 1. *)
Definition PdfCmd_dateRanges (opts : PdfCmdOpts) (app : App) : Z + DateRanges :=
  match usable_date opts with
  | Some d => inr d
  | None =>
      let lastUpdated := App_getLastUpdated app pdf in
      if negb (truthy lastUpdated) then inl 1
      else
        match lastUpdated with
        | Some value =>
            inr (DateRanges_new [mkRange (Some (Date_new value)) None])
        | None => inl 1
        end
  end.

(** The action of [PdfCmd.init], from the normalisation of the date ranges
    to the call of the application layer. *)
Definition PdfCmd_action (opts : PdfCmdOpts) (app : App) : ActionEnd :=
  match PdfCmd_dateRanges opts app with
  | inl code => Exit code
  | inr dateRanges =>
      match nonempty (output opts), nonempty (app_formsDataFile app) with
      | Some outputPath, _ | None, Some outputPath =>
          GetPdf (mkBikeLogOpts outputPath dateRanges)
      | None, None => Exit 1
      end
  end.
End PdfCmd.

(** ** Hosts to run the embedding on *)

(** A host on UTC and one eight hours west of it (Pacific Standard Time). *)
Definition utc_zone : TimeZone := fun _ => 0.
Definition pacific_zone : TimeZone := fun _ => - 8 * msPerHour.

(** A runtime that accepts only the date-time string format. *)
Definition strict_dates : DateFallback :=
  {| Date_parse_legacy := fun _ => None; Date_of_object := fun _ => None |}.

(** Date ranges kept as the calls that built them. *)
Definition symbolic_ranges : DateRangeLib :=
  {| DateRanges := string + list DateRangeDef;
     dateRanges := inl;
     DateRanges_new := inr;
     hasRanges := fun r =>
       match r with
       | inl spec => negb (String.eqb spec "")
       | inr defs => negb (Nat.eqb (length defs) 0)
       end |}.

(** A codec whose texts are the JSON values themselves, and one more text
    that is not JSON. *)
Definition plain_codec : JsonCodec :=
  {| text := option json;
     JSON_stringify := Some;
     JSON_parse := fun t => t |}.

(** ** Vocabulary of the properties *)

(** [m] is the activity at index [i], no activity has a later timestamp, and
    every activity before index [i] has a strictly earlier one: [m] is the
    first activity of the list with the maximum timestamp. *)
Definition first_latest (activities : list Activity) (i : nat) (m : Activity) : Prop :=
  activities !! i = Some m /\
  (forall j a, activities !! j = Some a ->
     String.ltb (startDatetimeLocal m) (startDatetimeLocal a) = false) /\
  (forall j a, (j < i)%nat -> activities !! j = Some a ->
     String.ltb (startDatetimeLocal a) (startDatetimeLocal m) = true).

(** The member of a channel can take the property [lastUpdated]: it is
    missing or falsy (and is then replaced by a new object), or it is an
    object or an array.  Every [UserState] of the declared type is so. *)
Definition takes_property (entry : option json) : bool :=
  negb (truthy entry)
  || match entry with
     | Some (JObj _) | Some (JArr _ _) => true
     | _ => false
     end.

(** The state as [updateLastUpdated] leaves it in memory for the timestamp
    [value]: the member of the channel is a new object when it was falsy, and
    has [lastUpdated] set. *)
Definition with_lastUpdated (type : OutputType) (value : ISODate)
    (st : gmap string json) : gmap string json :=
  let st1 := if negb (truthy (st !! key type)) then <[key type := JObj ∅]> st else st in
  match st1 !! key type with
  | Some entry =>
      match prop_set entry "lastUpdated" (JStr value) with
      | inr entry' => <[key type := entry']> st1
      | inl _ => st1
      end
  | None => st1
  end.

(** The declared type [UserState]: members [kml] and [pdf] only, each an
    object whose only member is a string [lastUpdated]. *)
Definition is_UserState (st : gmap string json) : Prop :=
  forall k v, st !! k = Some v ->
    (k = "kml" \/ k = "pdf") /\
    exists props, v = JObj props /\
      forall k' v', props !! k' = Some v' ->
        k' = "lastUpdated" /\ exists s, v' = JStr s.

(** The world after the information line of [updateLastUpdated]. *)
Definition informed `{JsonCodec} (type : OutputType) (value : ISODate) (w : World)
    : World :=
  mkWorld (disk w) (faults w) (trace w)
          (mkLog Info ["Updated"; key type; "last updated to"; value] :: log w).

(** The runtime's [JSON.parse] reads back what its [JSON.stringify] wrote. *)
Definition round_trips (codec : JsonCodec) : Prop :=
  forall v, serializable v -> JSON_parse (JSON_stringify v) = Some v.

(** The member of a channel is missing, falsy or a plain object: it can
    take the property [lastUpdated] and [JSON.stringify] writes the property
    (on an array it would be a named property, which is not written). *)
Definition object_or_falsy (entry : option json) : bool :=
  match entry with
  | Some (JObj _) => true
  | Some (JArr _ _) => false
  | _ => negb (truthy entry)
  end.

(** The offset from UTC that [Date.parse] takes off the local time value [t]
    of the fields [f]: the offset written in the string, or the one of the
    host when the string has none. *)
Definition utc_shift `{TimeZone} (f : DateFields) (t : Z) : Z :=
  match f_zone f with
  | Some offset => offset * msPerMinute
  | None => LocalTZA t
  end.

(** The file operation met a fault, or there was none. *)
Definition raised (fault : option JsError) : Prop := fault <> None.

(** ** Sample data *)

(** A world with the given files, no fault to come, and nothing done yet. *)
Definition calm `{JsonCodec} (files : gmap string text) : World :=
  mkWorld files [] [] [].

(** A world whose first coming file operation fails. *)
Definition failing `{JsonCodec} (files : gmap string text) (e : JsError) : World :=
  mkWorld files [Some e] [] [].

Definition disk_full : JsError := mkError "Error" "No space left on device".

(** The activities of the specification's example, in the order given. *)
Definition january_rides : list Activity :=
  [ mkActivity 101 "2024-01-05T10:00";
    mkActivity 102 "2024-01-07T08:00";
    mkActivity 103 "2024-01-06T23:00" ].

(** A state with one channel set. *)
Definition state_with (type : OutputType) (value : ISODate) : gmap string json :=
  {[ key type := JObj {[ "lastUpdated" := JStr value ]} ]}.

(** A state file edited by hand, whose [kml] member is the timestamp itself
    instead of an object. *)
Definition flat_state : gmap string json :=
  {[ "kml" := JStr "2024-01-07T08:00" ]}.

(** The rides of January in another order. *)
Definition january_rides_shuffled : list Activity :=
  [ mkActivity 103 "2024-01-06T23:00";
    mkActivity 101 "2024-01-05T10:00";
    mkActivity 102 "2024-01-07T08:00" ].

(** Rides older than those of January. *)
Definition december_rides : list Activity :=
  [ mkActivity 91 "2023-12-24T09:00";
    mkActivity 92 "2023-12-26T14:30" ].

(** * Properties *)

(** ** The order of timestamps *)

Lemma ltb_lt (a b : string) : String.ltb a b = true <-> String_as_OT.lt a b.
Proof.
  unfold String.ltb, String_as_OT.lt.
  change String_as_OT.compare with String.compare.
  destruct (String.compare a b); split; congruence.
Qed.

Lemma ltb_irrefl (a : string) : String.ltb a a = false.
Proof.
  destruct (String.ltb a a) eqn:E; [|reflexivity].
  apply ltb_lt in E. exfalso. exact (StrictOrder_Irreflexive a E).
Qed.

Lemma ltb_trans (a b c : string) :
  String.ltb a b = true -> String.ltb b c = true -> String.ltb a c = true.
Proof.
  rewrite !ltb_lt. apply (StrictOrder_Transitive (R := String_as_OT.lt)).
Qed.

(** [a <= b < c] gives [a < c]: the order is total. *)
Lemma ltb_le_lt_trans (a b c : string) :
  String.ltb b a = false -> String.ltb b c = true -> String.ltb a c = true.
Proof.
  intros Hle Hlt.
  destruct (String_as_OT.compare_spec a b) as [Heq|Hab|Hba].
  - unfold String_as_OT.eq in Heq. now subst.
  - apply ltb_lt in Hab. eauto using ltb_trans.
  - apply ltb_lt in Hba. congruence.
Qed.

Lemma ltb_asym (a b : string) : String.ltb a b = true -> String.ltb b a = false.
Proof.
  intros Hab. destruct (String.ltb b a) eqn:Hba; [|reflexivity].
  pose proof (ltb_trans _ _ _ Hab Hba) as Haa. rewrite ltb_irrefl in Haa. discriminate.
Qed.

(** ** The loop of [updateLastUpdated] *)

(** Started from a current candidate [m0], the loop keeps it when nothing
    later follows, and otherwise ends on the first latest of what follows. *)
Lemma fold_mostRecent_from (activities : list Activity) (m0 : Activity) :
  exists m, fold_left mostRecent_step activities (Some m0) = Some m /\
    ((m = m0 /\
      forall j a, activities !! j = Some a ->
        String.ltb (startDatetimeLocal m0) (startDatetimeLocal a) = false)
     \/ (exists i, first_latest activities i m /\
           String.ltb (startDatetimeLocal m0) (startDatetimeLocal m) = true)).
Proof.
  revert m0. induction activities as [|a l IH]; intros m0; simpl.
  - exists m0. split; [reflexivity|]. left. split; [reflexivity|].
    intros j b Hj. destruct j; discriminate.
  - destruct (String.ltb (startDatetimeLocal m0) (startDatetimeLocal a)) eqn:Hlt.
    + destruct (IH a) as (m & Hm & [[-> Hall] | (i & (Hi & Hmax & Hfirst) & Hgt)]).
      * exists a. split; [assumption|]. right. exists 0%nat. split; [|assumption].
        repeat split.
        -- intros [|j] b Hj; simpl in Hj.
           ++ injection Hj as <-. apply ltb_irrefl.
           ++ eauto.
        -- intros j b Hj. lia.
      * exists m. split; [assumption|]. right. exists (S i). split.
        -- repeat split; [assumption| |].
           ++ intros [|j] b Hj; simpl in Hj; [|eauto].
              injection Hj as <-. now apply ltb_asym.
           ++ intros [|j] b Hlt' Hj; simpl in Hj.
              ** injection Hj as <-. assumption.
              ** apply (Hfirst j); [lia|assumption].
        -- eauto using ltb_trans.
    + destruct (IH m0) as (m & Hm & [[-> Hall] | (i & (Hi & Hmax & Hfirst) & Hgt)]).
      * exists m0. split; [assumption|]. left. split; [reflexivity|].
        intros [|j] b Hj; simpl in Hj; [|eauto].
        injection Hj as <-. assumption.
      * exists m. split; [assumption|]. right. exists (S i). split; [|assumption].
        repeat split; [assumption| |].
        -- intros [|j] b Hj; simpl in Hj; [|eauto].
           injection Hj as <-.
           apply ltb_asym. eauto using ltb_le_lt_trans.
        -- intros [|j] b Hlt' Hj; simpl in Hj.
           ++ injection Hj as <-. eauto using ltb_le_lt_trans.
           ++ apply (Hfirst j); [lia|assumption].
Qed.

(** Of two activities with the same timestamp the loop keeps the first. *)
Example find_mostRecent_tie :
  find_mostRecent [mkActivity 1 "2024-01-07T08:00"; mkActivity 2 "2024-01-07T08:00";
                   mkActivity 3 "2024-01-05T10:00"]
  = Some (mkActivity 1 "2024-01-07T08:00").
Proof. reflexivity. Qed.

(** On a non-empty list the loop ends on the first latest activity. *)
Lemma find_mostRecent_first_latest (activities : list Activity) :
  activities <> [] ->
  exists i m, find_mostRecent activities = Some m /\ first_latest activities i m.
Proof.
  destruct activities as [|a l]; [congruence|]. intros _.
  unfold find_mostRecent. simpl.
  destruct (fold_mostRecent_from l a) as (m & Hm & [[-> Hall] | (i & (Hi & Hmax & Hfirst) & Hgt)]).
  - exists 0%nat, a. split; [assumption|]. repeat split.
    + intros [|j] b Hj; simpl in Hj; [|eauto].
      injection Hj as <-. apply ltb_irrefl.
    + intros j b Hj. lia.
  - exists (S i), m. split; [assumption|]. repeat split; [assumption| |].
    + intros [|j] b Hj; simpl in Hj; [|eauto].
      injection Hj as <-. now apply ltb_asym.
    + intros [|j] b Hlt' Hj; simpl in Hj.
      * injection Hj as <-. assumption.
      * apply (Hfirst j); [lia|assumption].
Qed.

(** ** [save] *)

Section SaveFacts.
Context `{JsonCodec}.

(** Case analysis on the first entries of the fault script. *)
Ltac script w :=
  destruct w as [d f tr lg];
  destruct f as [|[e0|] [|[e1|] [|[e2|] [|[e3|] f]]]].

(** Without a fault, [save] writes the whole state to the file of the
    object, through one writer that it closes. *)
Lemma save_quiet (this : StateFile) (w : World) :
  quiet 3 w = true ->
  save this w =
    (Return tt, this,
     mkWorld (<[file this := JSON_stringify (JObj (state this))]> (disk w))
             (drop 3 (faults w))
             (OpClose :: OpWrite :: OpWriter :: trace w)
             (mkLog Debug ["Saved state file"; file this] :: log w)).
Proof.
  script w; cbn; intros Hq; try discriminate; reflexivity.
Qed.

(** With a fault in one of its three file operations, [save] throws one of
    the scripted faults, after an error line in the log; the fields of the
    object are as before. *)
Lemma save_fault (this : StateFile) (w : World) :
  quiet 3 w = false ->
  exists e w',
    save this w = (Throw e, this, w') /\
    (exists i, faults w !! i = Some (Some e)) /\
    head (log w') =
      Some (mkLog LogError ["Failed to save state file: " ++ err_message e]).
Proof.
  script w; cbn; intros Hq; try discriminate;
    eexists _, _; (split; [reflexivity|]); (split; [|reflexivity]).
  all: first [ now exists 0%nat | now exists 1%nat | now exists 2%nat | now exists 3%nat ].
Qed.

(** The failure thrown is the first one met, unless the closing of the
    writer in the handler fails in its turn. *)
Lemma save_rethrows (this : StateFile) (w : World) (i : nat) (e : JsError) :
  (i < 3)%nat ->
  quiet i w = true ->
  fault_at i w = Some e ->
  i = 0%nat \/ fault_at (S i) w = None ->
  exists w', save this w = (Throw e, this, w').
Proof.
  intros Hi Hq Hf Hc.
  destruct i as [|[|[|i]]]; [| | |lia]; script w; cbn in Hq, Hf, Hc |- *;
    try discriminate; try (destruct Hc as [Hc|Hc]; discriminate);
    injection Hf as ->; eexists; reflexivity.
Qed.

(** [save] always asks for a writer first: it leaves file operations in the
    trace, the earliest of them [OpWriter]. *)
Lemma save_traces (this : StateFile) (w : World) :
  exists ops, trace (save this w).2 = (ops ++ OpWriter :: trace w)%list.
Proof.
  script w; cbn;
    first [ now exists [] | now exists [OpClose; OpWrite]
          | now exists [OpClose; OpClose; OpWrite] ].
Qed.

(** [save] never touches the fields of the object. *)
Lemma save_this (this : StateFile) (w : World) : (save this w).1.2 = this.
Proof.
  destruct (quiet 3 w) eqn:Hq.
  - now rewrite save_quiet.
  - destruct (save_fault this w Hq) as (e & w' & -> & _). reflexivity.
Qed.
End SaveFacts.

(** ** [updateLastUpdated] *)

Section UpdateFacts.
Context `{JsonCodec}.

Lemma getLastUpdated_with_lastUpdated (type : OutputType) (value : ISODate)
    (path : string) (st : gmap string json) :
  takes_property (st !! key type) = true ->
  getLastUpdated type (mkStateFile path (with_lastUpdated type value st))
    = Some (JStr value).
Proof.
  unfold getLastUpdated, with_lastUpdated, takes_property. simpl.
  destruct (truthy (st !! key type)) eqn:Ht; simpl.
  - destruct (st !! key type) as [[| | | | |]|] eqn:He; try discriminate; intros _;
      simpl; rewrite lookup_insert_eq; simpl; apply lookup_insert_eq.
  - intros _. rewrite lookup_insert_eq. simpl.
    rewrite lookup_insert_eq. simpl. apply lookup_insert_eq.
Qed.

Lemma with_lastUpdated_other (type : OutputType) (value : ISODate)
    (st : gmap string json) (k : string) :
  k <> key type -> with_lastUpdated type value st !! k = st !! k.
Proof.
  intros Hk. unfold with_lastUpdated.
  destruct (negb (truthy (st !! key type))).
  - rewrite lookup_insert_eq. simpl.
    now rewrite !lookup_insert_ne by congruence.
  - destruct (st !! key type) as [entry|]; [|reflexivity].
    destruct (prop_set entry "lastUpdated" (JStr value)); [reflexivity|].
    now rewrite lookup_insert_ne by congruence.
Qed.

(** On a non-empty list whose channel member can take the property,
    [updateLastUpdated] sets the timestamp of the most recent activity in
    memory and then runs [save] on the state so changed. *)
Lemma updateLastUpdated_run (type : OutputType) (activities : list Activity)
    (m : Activity) (this : StateFile) (w : World) :
  activities <> [] ->
  find_mostRecent activities = Some m ->
  takes_property (state this !! key type) = true ->
  updateLastUpdated type activities this w =
    save (mkStateFile (file this)
            (with_lastUpdated type (startDatetimeLocal m) (state this)))
         (informed type (startDatetimeLocal m) w).
Proof.
  intros Hne Hm Htp. unfold updateLastUpdated.
  destruct activities as [|a l]; [congruence|]. simpl length. simpl Nat.eqb.
  cbv iota. rewrite Hm.
  unfold takes_property in Htp. unfold with_lastUpdated.
  destruct this as [path st]. destruct w as [d f tr lg]. simpl in *.
  unfold bind at 1. unfold get_state at 1. simpl.
  destruct (truthy (st !! key type)) eqn:Ht; simpl in *.
  - unfold bind at 1. unfold ret at 1.
    unfold bind at 1. unfold set_lastUpdated, bind at 1, get_state. simpl.
    destruct (st !! key type) as [[| | | | |]|] eqn:He; try discriminate; simpl;
      reflexivity.
  - unfold bind at 1. unfold set_state at 1. simpl.
    unfold bind at 1. unfold set_lastUpdated, bind at 1, get_state. simpl.
    rewrite lookup_insert_eq. simpl. reflexivity.
Qed.
End UpdateFacts.

(** ** [load] *)

Section LoadFacts.
Context `{JsonCodec}.

(** The state [load] ends with: the record in the file when the file is
    there, is read without fault and holds a keyed record; the empty state
    otherwise. *)
Lemma load_run (this : StateFile) (w : World) :
  exists st w',
    load this w = (Return tt, mkStateFile (file this) st, w') /\
    disk w' = disk w /\
    st = (if quiet 2 w then
            match disk w !! file this with
            | Some t =>
                match JSON_parse t with
                | Some (JObj dict) => dict
                | _ => ∅
                end
            | None => ∅
            end
          else ∅).
Proof.
  destruct this as [path st0]. destruct w as [d f tr lg].
  unfold load, try_catch, bind, get_file, File_exists, File_readJson, file_op,
    fault_at, quiet.
  cbn [file state disk faults trace log fst snd].
  destruct (d !! path) as [t|] eqn:Hd;
    [destruct (JSON_parse t) as [[| | | | |]|] eqn:Hp|];
    destruct f as [|[e0|] [|[e1|] f]]; cbn; rewrite ?Hd; cbn; rewrite ?Hp; cbn;
    eexists _, _; repeat split; reflexivity.
Qed.
End LoadFacts.

(** ** The claims on the state store and the tracker *)

Section TrackerClaims.
Context `{JsonCodec}.

(** When the member of the channel is a truthy primitive, the assignment of
    [lastUpdated] raises, before any change and any file operation. *)
Lemma updateLastUpdated_rejects (type : OutputType) (activities : list Activity)
    (this : StateFile) (w : World) :
  activities <> [] ->
  takes_property (state this !! key type) = false ->
  exists e, updateLastUpdated type activities this w = (Throw e, this, w).
Proof.
  intros Hne Htp.
  destruct (find_mostRecent_first_latest activities Hne) as (i & m & Hm & _).
  unfold updateLastUpdated.
  destruct activities as [|a l]; [congruence|]. simpl length. simpl Nat.eqb.
  cbv iota. rewrite Hm.
  destruct this as [path st]. simpl in *.
  unfold takes_property in Htp.
  unfold bind at 1. unfold get_state at 1. simpl.
  destruct (truthy (st !! key type)) eqn:Ht; simpl in Htp; [|discriminate].
  simpl. unfold bind at 1. unfold ret at 1.
  unfold bind at 1. unfold set_lastUpdated, bind at 1, get_state. simpl.
  destruct (st !! key type) as [[| | | | |]|] eqn:He; try discriminate; simpl;
    eexists; reflexivity.
Qed.

(** Whatever the list and the outcome, [updateLastUpdated] on one channel
    leaves the members of the state under every other key as they were. *)
Lemma updateLastUpdated_other_keys (type : OutputType) (activities : list Activity)
    (this : StateFile) (w : World) (k : string) :
  k <> key type ->
  state (updateLastUpdated type activities this w).1.2 !! k = state this !! k.
Proof.
  intros Hk. destruct activities as [|a l] eqn:Hl; [reflexivity|]. rewrite <- Hl.
  assert (Hne : activities <> []) by (subst; discriminate).
  destruct (takes_property (state this !! key type)) eqn:Htp.
  - destruct (find_mostRecent_first_latest activities Hne) as (i & m & Hm & _).
    rewrite (updateLastUpdated_run type activities m this w Hne Hm Htp).
    rewrite save_this. simpl. now apply with_lastUpdated_other.
  - destruct (updateLastUpdated_rejects type activities this w Hne Htp) as (e & ->).
    reflexivity.
Qed.

(** C1: for every non-empty list of activities, [updateLastUpdated] sets the
    [lastUpdated] of the channel to the maximum [startDatetimeLocal] of the
    list, taken from the first activity that carries it, and then persists
    the whole state through [save]: the call is [save] on the state so
    changed, and without an I/O fault the file holds that whole state. *)
Theorem updateLastUpdated_sets_latest (type : OutputType)
    (activities : list Activity) (this : StateFile) (w : World) :
  activities <> [] ->
  takes_property (state this !! key type) = true ->
  exists i m this',
    first_latest activities i m /\
    getLastUpdated type this' = Some (JStr (startDatetimeLocal m)) /\
    file this' = file this /\
    updateLastUpdated type activities this w
      = save this' (informed type (startDatetimeLocal m) w) /\
    (updateLastUpdated type activities this w).1.2 = this' /\
    (quiet 3 w = true ->
     exists w',
       updateLastUpdated type activities this w = (Return tt, this', w') /\
       disk w' !! file this = Some (JSON_stringify (JObj (state this')))).
Proof.
  intros Hne Htp.
  destruct (find_mostRecent_first_latest activities Hne) as (i & m & Hm & Hfl).
  exists i, m, (mkStateFile (file this)
                 (with_lastUpdated type (startDatetimeLocal m) (state this))).
  rewrite (updateLastUpdated_run type activities m this w Hne Hm Htp).
  split; [exact Hfl|].
  split; [now apply getLastUpdated_with_lastUpdated|].
  split; [reflexivity|]. split; [reflexivity|].
  split; [apply save_this|].
  intros Hq. rewrite save_quiet by exact Hq.
  eexists. split; [reflexivity|]. simpl. apply lookup_insert_eq.
Qed.

(** C3: [load] never raises.  Whatever the backing file and the faults of
    its file operations, it returns; the state is empty when the file is
    absent, when its content does not parse, when the parsed content is not
    a keyed record, and when a file operation fails; and in the empty state
    [getLastUpdated] gives nothing for every channel.  Only a keyed record
    read without fault becomes the state. *)
Theorem load_never_raises (this : StateFile) (w : World) :
  exists st w',
    load this w = (Return tt, mkStateFile (file this) st, w') /\
    (disk w !! file this = None -> st = ∅) /\
    (forall t, disk w !! file this = Some t -> JSON_parse t = None -> st = ∅) /\
    (forall t v, disk w !! file this = Some t -> JSON_parse t = Some v ->
       isDict v = None -> st = ∅) /\
    (quiet 2 w = false -> st = ∅) /\
    (st = ∅ -> forall type, getLastUpdated type (mkStateFile (file this) st) = None) /\
    (st <> ∅ -> exists t, quiet 2 w = true /\ disk w !! file this = Some t /\
       JSON_parse t = Some (JObj st)).
Proof.
  destruct (load_run this w) as (st & w' & Hload & _ & Hst).
  exists st, w'. split; [exact Hload|].
  repeat split.
  - intros Hd. rewrite Hd in Hst. now destruct (quiet 2 w).
  - intros t Hd Hp. rewrite Hd, Hp in Hst. now destruct (quiet 2 w).
  - intros t v Hd Hp Hv. rewrite Hd, Hp in Hst.
    destruct v; try discriminate; now destruct (quiet 2 w).
  - intros Hq. now rewrite Hq in Hst.
  - intros -> type. unfold getLastUpdated. simpl. now rewrite lookup_empty.
  - intros Hne. destruct (quiet 2 w); [|congruence].
    destruct (disk w !! file this) as [t|]; [|congruence].
    exists t. repeat split.
    destruct (JSON_parse t) as [[| | | | |]|]; congruence.
Qed.

(** C4: an I/O failure during [save] is surfaced.  When one of the three
    file operations of [save] fails, [save] throws a failure of the file
    operations and leaves a line of level error in the log; the failure
    thrown is the first one met, unless closing the writer in the handler
    fails too; and [updateLastUpdated] on a non-empty list throws it in
    turn. *)
Theorem save_failure_surfaces (this : StateFile) (w : World) :
  quiet 3 w = false ->
  (exists e w',
     save this w = (Throw e, this, w') /\
     (exists i, faults w !! i = Some (Some e)) /\
     head (log w') =
       Some (mkLog LogError ["Failed to save state file: " ++ err_message e])) /\
  (forall i e,
     (i < 3)%nat -> quiet i w = true -> fault_at i w = Some e ->
     i = 0%nat \/ fault_at (S i) w = None ->
     exists w', save this w = (Throw e, this, w')) /\
  (forall type activities,
     activities <> [] ->
     takes_property (state this !! key type) = true ->
     exists e this' w',
       updateLastUpdated type activities this w = (Throw e, this', w') /\
       (exists i, faults w !! i = Some (Some e))).
Proof.
  intros Hq. split; [|split].
  - now apply save_fault.
  - intros i e. apply save_rethrows.
  - intros type activities Hne Htp.
    destruct (find_mostRecent_first_latest activities Hne) as (i & m & Hm & _).
    rewrite (updateLastUpdated_run type activities m this w Hne Hm Htp).
    destruct (save_fault
                (mkStateFile (file this)
                   (with_lastUpdated type (startDatetimeLocal m) (state this)))
                (informed type (startDatetimeLocal m) w) Hq)
      as (e & w' & Hs & Hi & _).
    eauto.
Qed.

(** C5: [updateLastUpdated] on the empty list does nothing: the fields of
    the object, the disk and the fault script are as before, and the only
    effect is a debug line in the log.  No file operation is performed, so
    [save] is not invoked: [save] always leaves a writer in the trace. *)
Theorem updateLastUpdated_empty (type : OutputType) (this : StateFile) (w : World) :
  updateLastUpdated type [] this w =
    (Return tt, this,
     mkWorld (disk w) (faults w) (trace w)
             (mkLog Debug ["No activities to update state from"] :: log w)) /\
  trace (updateLastUpdated type [] this w).2 = trace w /\
  (forall this0 w0, trace (save this0 w0).2 <> trace w0).
Proof.
  split; [reflexivity|]. split; [reflexivity|].
  intros this0 w0 Heq.
  destruct (save_traces this0 w0) as (ops & Hops).
  rewrite Heq in Hops. apply (f_equal length) in Hops.
  rewrite length_app in Hops. simpl in Hops. lia.
Qed.

(** C7: the channels are independent.  For every state, every list of
    activities and every outcome, [updateLastUpdated] on [pdf] leaves
    [getLastUpdated kml] as it was, and [updateLastUpdated] on [kml] leaves
    [getLastUpdated pdf] as it was. *)
Theorem channels_independent (activities : list Activity) (this : StateFile)
    (w : World) :
  getLastUpdated kml (updateLastUpdated pdf activities this w).1.2
    = getLastUpdated kml this /\
  getLastUpdated pdf (updateLastUpdated kml activities this w).1.2
    = getLastUpdated pdf this.
Proof.
  unfold getLastUpdated.
  split; rewrite updateLastUpdated_other_keys; (reflexivity || discriminate).
Qed.

(** C9: [updateLastUpdated] changes the state in memory before it calls
    [save].  When [save] fails on a non-empty list, the failure is thrown
    and the [lastUpdated] of the channel in memory is already the timestamp
    of the most recent activity: the change is not rolled back. *)
Theorem updateLastUpdated_not_rolled_back (type : OutputType)
    (activities : list Activity) (this : StateFile) (w : World) :
  activities <> [] ->
  takes_property (state this !! key type) = true ->
  quiet 3 w = false ->
  exists e i m this' w',
    updateLastUpdated type activities this w = (Throw e, this', w') /\
    first_latest activities i m /\
    getLastUpdated type this' = Some (JStr (startDatetimeLocal m)).
Proof.
  intros Hne Htp Hq.
  destruct (find_mostRecent_first_latest activities Hne) as (i & m & Hm & Hfl).
  rewrite (updateLastUpdated_run type activities m this w Hne Hm Htp).
  destruct (save_fault
              (mkStateFile (file this)
                 (with_lastUpdated type (startDatetimeLocal m) (state this)))
              (informed type (startDatetimeLocal m) w) Hq)
    as (e & w' & Hs & _).
  exists e, i, m. eexists _, w'. split; [exact Hs|]. split; [exact Hfl|].
  now apply getLastUpdated_with_lastUpdated.
Qed.
End TrackerClaims.

(** ** Round trips through the file *)

Section RoundTrips.
Context `{codec : JsonCodec}.

Lemma quiet_add (n m : nat) (w : World) (d : gmap string text)
    (tr : list FileOp) (lg : list LogEntry) :
  quiet (n + m) w = true ->
  quiet n w = true /\ quiet m (mkWorld d (drop n (faults w)) tr lg) = true.
Proof.
  unfold quiet. simpl. generalize (faults w) as f.
  induction n as [|n IH]; intros f; simpl.
  - rewrite drop_0. auto.
  - destruct f as [|[e|] f]; simpl.
    + rewrite take_nil. auto.
    + discriminate.
    + apply IH.
Qed.

(** Without a fault, [load] of a file that holds a keyed record makes the
    whole record the state. *)
Lemma load_quiet (this : StateFile) (w : World) (t : text)
    (dict : gmap string json) :
  quiet 2 w = true ->
  disk w !! file this = Some t ->
  JSON_parse t = Some (JObj dict) ->
  load this w =
    (Return tt, mkStateFile (file this) dict,
     mkWorld (disk w) (drop 2 (faults w))
             (OpReadJson :: OpExists :: trace w)
             (mkLog Debug ["Loaded state file"; file this] :: log w)).
Proof.
  destruct this as [path st0]. destruct w as [d f tr lg].
  unfold load, try_catch, bind, get_file, File_exists, File_readJson, file_op,
    fault_at, quiet.
  cbn [file state disk faults trace log fst snd].
  intros Hq.
  destruct (d !! path) as [t'|] eqn:Hd; [|discriminate]. intros [= ->].
  destruct (JSON_parse t) as [v|] eqn:Hp; [|discriminate]. intros [= ->].
  destruct f as [|[e0|] [|[e1|] f]]; try discriminate;
    cbn; rewrite ?Hd; cbn; rewrite ?Hp; reflexivity.
Qed.

(** In a state of the declared type [UserState] every channel member can
    take the property [lastUpdated]. *)
Lemma UserState_takes_property (st : gmap string json) (type : OutputType) :
  is_UserState st -> takes_property (st !! key type) = true.
Proof.
  intros Hst. unfold takes_property.
  destruct (st !! key type) as [v|] eqn:Hk; [|reflexivity].
  destruct (Hst _ v Hk) as (_ & props & -> & _). reflexivity.
Qed.

(** Every state of the declared type [UserState] is written back unchanged
    by [JSON.stringify]. *)
Lemma UserState_serializable (st : gmap string json) :
  is_UserState st -> serializable (JObj st).
Proof.
  intros Hst. constructor. intros k v Hk.
  destruct (Hst k v Hk) as (_ & props & -> & Hprops).
  constructor. intros k' v' Hk'.
  destruct (Hprops k' v' Hk') as (_ & s & ->). constructor.
Qed.

(** C6: [save] followed by a fresh [load] from the same path reproduces the
    state, hence the [lastUpdated] of every channel: when the runtime's JSON
    functions round-trip, for every state that [JSON.stringify] writes
    unchanged (every [UserState] is one) and without an I/O fault, both
    calls return and [getLastUpdated] gives after them what it gave
    before. *)
Theorem save_load_round_trip (this : StateFile) (w : World) :
  round_trips codec ->
  serializable (JObj (state this)) ->
  quiet 5 w = true ->
  exists w1 this2 w2,
    save this w = (Return tt, this, w1) /\
    load (StateFile_new (file this)) w1 = (Return tt, this2, w2) /\
    state this2 = state this /\
    forall type, getLastUpdated type this2 = getLastUpdated type this.
Proof.
  intros Hrt Hser Hq.
  destruct (quiet_add 3 2 w
              (<[file this := JSON_stringify (JObj (state this))]> (disk w))
              (OpClose :: OpWrite :: OpWriter :: trace w)
              (mkLog Debug ["Saved state file"; file this] :: log w) Hq)
    as (Hq3 & Hq2).
  rewrite (save_quiet this w Hq3).
  eexists _, _, _. split; [reflexivity|].
  split.
  - apply (load_quiet _ _ (JSON_stringify (JObj (state this))) (state this)).
    + exact Hq2.
    + simpl. apply lookup_insert_eq.
    + now apply Hrt.
  - split; reflexivity.
Qed.

(** C10: the unknown top-level keys of a valid state record survive a
    [load] followed by a [save].  [load] makes the entire parsed record the
    state, [save] writes the entire state, so the file then holds the whole
    record; and when the runtime's JSON functions round-trip, every key of
    the record is read back from the written file with its value. *)
Theorem load_save_keeps_unknown_keys (path : string) (w : World) (t : text)
    (dict : gmap string json) :
  quiet 5 w = true ->
  disk w !! path = Some t ->
  JSON_parse t = Some (JObj dict) ->
  exists this1 w1 w2,
    load (StateFile_new path) w = (Return tt, this1, w1) /\
    state this1 = dict /\
    save this1 w1 = (Return tt, this1, w2) /\
    disk w2 !! path = Some (JSON_stringify (JObj dict)) /\
    (round_trips codec -> serializable (JObj dict) ->
     forall k v, dict !! k = Some v ->
       exists t' dict',
         disk w2 !! path = Some t' /\
         JSON_parse t' = Some (JObj dict') /\
         dict' !! k = Some v).
Proof.
  intros Hq Hd Hp.
  destruct (quiet_add 2 3 w (disk w) (OpReadJson :: OpExists :: trace w)
              (mkLog Debug ["Loaded state file"; path] :: log w) Hq)
    as (Hq2 & Hq3).
  rewrite (load_quiet (StateFile_new path) w t dict Hq2 Hd Hp).
  eexists _, _, _. split; [reflexivity|]. split; [reflexivity|].
  rewrite (save_quiet _ _ Hq3). split; [reflexivity|].
  simpl. split; [apply lookup_insert_eq|].
  intros Hrt Hser k v Hk.
  exists (JSON_stringify (JObj dict)), dict.
  split; [apply lookup_insert_eq|]. split; [now apply Hrt|exact Hk].
Qed.
End RoundTrips.

(** ** The calendar date that [toISOString] writes *)

Lemma DayFromYear_succ (y : Z) : DayFromYear (y + 1) = DayFromYear y + DaysInYear y.
Proof.
  unfold DayFromYear, DaysInYear.
  destruct (Z.eqb_spec (y mod 4) 0), (Z.eqb_spec (y mod 100) 0),
    (Z.eqb_spec (y mod 400) 0); simpl; Z.div_mod_to_equations; lia.
Qed.

Lemma DaysInYear_pos (y : Z) : 365 <= DaysInYear y <= 366.
Proof. unfold DaysInYear. repeat destruct (_ =? _); simpl; lia. Qed.

Lemma DayFromYear_mono (y1 y2 : Z) : y1 <= y2 -> DayFromYear y1 <= DayFromYear y2.
Proof. unfold DayFromYear. intros. Z.div_mod_to_equations. lia. Qed.

Lemma year_estimate_below (D y : Z) :
  D < DayFromYear (y + 1) ->
  1970 + (if 0 <=? D then D / 366 else D / 365) <= y.
Proof.
  unfold DayFromYear. intros. destruct (Z.leb_spec 0 D); Z.div_mod_to_equations; lia.
Qed.

Lemma year_estimate_fuel (D y : Z) :
  DayFromYear y <= D ->
  y - (1970 + (if 0 <=? D then D / 366 else D / 365)) <= Z.abs D / 100000 + 2.
Proof.
  unfold DayFromYear. intros. destruct (Z.leb_spec 0 D); Z.div_mod_to_equations; lia.
Qed.

Lemma year_search_spec (fuel : nat) (y0 y t : Z) :
  y0 <= y -> y - y0 <= Z.of_nat fuel ->
  TimeFromYear y <= t < TimeFromYear (y + 1) ->
  year_search fuel y0 t = y.
Proof.
  revert y0. induction fuel as [|fuel IH]; intros y0 Hle Hfuel Ht; simpl.
  - lia.
  - destruct (Z.leb_spec (TimeFromYear (y0 + 1)) t) as [Hn|Hn].
    + apply IH; [|lia|assumption].
      destruct (Z.eq_dec y0 y) as [->|]; [lia|lia].
    + destruct (Z.eq_dec y0 y) as [->|Hne]; [reflexivity|].
      assert (DayFromYear (y0 + 1) <= DayFromYear y) by (apply DayFromYear_mono; lia).
      unfold TimeFromYear, msPerDay in *. lia.
Qed.

Lemma Day_MakeDate (day time : Z) :
  0 <= time < msPerDay -> Day (MakeDate day time) = day.
Proof.
  intros Ht. unfold Day, MakeDate, msPerDay in *.
  symmetry. apply (Z.div_unique _ _ _ time); lia.
Qed.

Lemma YearFromTime_spec (t y : Z) :
  DayFromYear y <= Day t < DayFromYear (y + 1) -> YearFromTime t = y.
Proof.
  intros [Hlo Hhi]. unfold YearFromTime.
  apply year_search_spec.
  - now apply year_estimate_below.
  - pose proof (year_estimate_fuel (Day t) y Hlo).
    assert (0 <= Z.abs (Day t) / 100000) by (apply Z.div_pos; lia). lia.
  - unfold TimeFromYear, Day, msPerDay in *. Z.div_mod_to_equations. lia.
Qed.

Lemma year_estimate_not_after (D : Z) :
  DayFromYear (1970 + (if 0 <=? D then D / 366 else D / 365)) <= D.
Proof.
  unfold DayFromYear. destruct (Z.leb_spec 0 D); Z.div_mod_to_equations; lia.
Qed.

Lemma year_estimate_reach (D : Z) :
  D < DayFromYear (1970 + (if 0 <=? D then D / 366 else D / 365)
                   + (Z.abs D / 100000 + 2) + 1).
Proof.
  unfold DayFromYear. destruct (Z.leb_spec 0 D); Z.div_mod_to_equations; lia.
Qed.

Lemma year_search_bounds (fuel : nat) (y t : Z) :
  TimeFromYear y <= t < TimeFromYear (y + Z.of_nat fuel + 1) ->
  TimeFromYear (year_search fuel y t) <= t < TimeFromYear (year_search fuel y t + 1).
Proof.
  revert y. induction fuel as [|fuel IH]; intros y Ht; simpl.
  - replace (y + Z.of_nat 0 + 1) with (y + 1) in Ht by lia. exact Ht.
  - destruct (Z.leb_spec (TimeFromYear (y + 1)) t) as [Hn|Hn].
    + apply IH. split; [exact Hn|].
      replace (y + 1 + Z.of_nat fuel + 1) with (y + Z.of_nat (S fuel) + 1) by lia.
      apply Ht.
    + lia.
Qed.

(** [YearFromTime t] is the year whose span holds [t], for every [t]. *)
Lemma YearFromTime_bounds (t : Z) :
  TimeFromYear (YearFromTime t) <= t < TimeFromYear (YearFromTime t + 1).
Proof.
  unfold YearFromTime. apply year_search_bounds.
  pose proof (year_estimate_not_after (Day t)) as Hlo.
  pose proof (year_estimate_reach (Day t)) as Hhi.
  assert (0 <= Z.abs (Day t) / 100000) by (apply Z.div_pos; lia).
  rewrite Z2Nat.id by lia.
  unfold TimeFromYear, Day, msPerDay in *.
  split.
  - Z.div_mod_to_equations. lia.
  - set (y := 1970 + _ + _ + 1) in *.
    generalize dependent (DayFromYear y). intros.
    Z.div_mod_to_equations. lia.
Qed.

Lemma DaysBeforeMonth_range (y m d : Z) :
  1 <= m <= 12 -> 1 <= d <= DaysInMonth y (m - 1) ->
  0 <= DaysBeforeMonth y (m - 1) + d - 1 < DaysInYear y.
Proof.
  intros Hm Hd.
  assert (Hc : m = 1 \/ m = 2 \/ m = 3 \/ m = 4 \/ m = 5 \/ m = 6 \/ m = 7 \/ m = 8
               \/ m = 9 \/ m = 10 \/ m = 11 \/ m = 12) by lia.
  unfold DaysInMonth, DaysBeforeMonth, DaysInYear in *.
  repeat destruct Hc as [->|Hc]; try subst m; simpl in *;
    repeat destruct (_ =? 0); simpl in *; lia.
Qed.

Lemma date_of_MakeDate (y m d time : Z) :
  1 <= m <= 12 -> 1 <= d <= DaysInMonth y (m - 1) -> 0 <= time < msPerDay ->
  let t := MakeDate (MakeDay y (m - 1) d) time in
  YearFromTime t = y /\ MonthFromTime t = m - 1 /\ DateFromTime t = d.
Proof.
  intros Hm Hd Ht t.
  assert (HD : Day t = DayFromYear y + DaysBeforeMonth y (m - 1) + d - 1).
  { unfold t. rewrite Day_MakeDate by assumption. unfold MakeDay. cbv zeta.
    rewrite Z.div_small by lia. rewrite Z.mod_small by lia.
    rewrite Z.add_0_r. reflexivity. }
  pose proof (DaysBeforeMonth_range y m d Hm Hd) as Hr.
  assert (HY : YearFromTime t = y).
  { apply YearFromTime_spec. rewrite DayFromYear_succ. lia. }
  split; [exact HY|].
  assert (Hc : m = 1 \/ m = 2 \/ m = 3 \/ m = 4 \/ m = 5 \/ m = 6 \/ m = 7 \/ m = 8
               \/ m = 9 \/ m = 10 \/ m = 11 \/ m = 12) by lia.
  unfold DateFromTime, MonthFromTime, DayWithinYear, InLeapYear.
  rewrite HY, HD. clear HD HY Hr t Ht.
  unfold DaysInMonth, DaysBeforeMonth in *.
  repeat destruct Hc as [->|Hc]; try subst m; simpl in *;
    destruct (DaysInYear y =? 366); simpl in *;
    repeat match goal with
           | |- context [?a <? ?b] => destruct (Z.ltb_spec a b); try lia
           end; split; lia.
Qed.

Lemma ascii_of_digit_plain (n : Z) :
  Ascii.eqb (ascii_of_digit n) "T" = false /\ Ascii.eqb (ascii_of_digit n) "-" = false.
Proof.
  unfold ascii_of_digit.
  pose proof (Z.mod_pos_bound n 10 ltac:(lia)) as Hr.
  assert (Hc : n mod 10 = 0 \/ n mod 10 = 1 \/ n mod 10 = 2 \/ n mod 10 = 3
               \/ n mod 10 = 4 \/ n mod 10 = 5 \/ n mod 10 = 6 \/ n mod 10 = 7
               \/ n mod 10 = 8 \/ n mod 10 = 9) by lia.
  repeat destruct Hc as [->|Hc]; try rewrite Hc; split; reflexivity.
Qed.

Lemma date_part (y m d : Z) (rest : string) :
  remove_all "-"
    (split_head "T"
       (pad 4 y "" ++ "-" ++ pad 2 m "" ++ "-" ++ pad 2 d "" ++ "T" ++ rest))
  = pad 4 y "" ++ pad 2 m "" ++ pad 2 d "".
Proof.
  cbn [pad]. cbv [String.append]. cbn [split_head remove_all].
  repeat (rewrite ?(proj1 (ascii_of_digit_plain _)), ?(proj2 (ascii_of_digit_plain _));
          cbn [split_head remove_all Ascii.eqb Bool.eqb]).
  reflexivity.
Qed.

Lemma read_digits_range (n : nat) (acc : Z) (s : string) (v : Z) (r : string) :
  read_digits n acc s = Some (v, r) -> 0 <= acc ->
  acc * 10 ^ Z.of_nat n <= v < (acc + 1) * 10 ^ Z.of_nat n.
Proof.
  revert acc s. induction n as [|n IH]; intros acc s Hr Hacc.
  - simpl in Hr. injection Hr as <- <-. simpl. lia.
  - simpl in Hr. destruct s as [|c s]; [discriminate|].
    destruct (digit_of c) as [dv|] eqn:Hd; [|discriminate].
    assert (0 <= dv <= 9).
    { unfold digit_of in Hd.
      destruct (_ && _) eqn:Hb; [|discriminate]. injection Hd as <-.
      apply andb_prop in Hb as [H1%Z.leb_le H2%Z.leb_le]. lia. }
    apply IH in Hr; [|lia].
    rewrite Nat2Z.inj_succ, Z.pow_succ_r by lia. nia.
Qed.

Lemma within_spec (lo hi v : Z) : within lo hi v = true <-> lo <= v <= hi.
Proof. unfold within. rewrite andb_true_iff, !Z.leb_le. tauto. Qed.

Lemma DayFromYear_four_digits (y : Z) :
  0 <= y <= 9999 -> -719528 <= DayFromYear y <= 2932532.
Proof. unfold DayFromYear. intros. Z.div_mod_to_equations. lia. Qed.

(** ** The date range of a run *)

Section DateRangeClaims.
Context `{zone : TimeZone} `{fallback : DateFallback} `{lib : DateRangeLib}.

(** Without a stored timestamp there is no range. *)
Lemma getDateRangeFrom_none (type : OutputType) (this : StateFile) :
  getLastUpdated type this = None ->
  getDateRangeFrom type this = Return None.
Proof. unfold getDateRangeFrom. now intros ->. Qed.

(** With a stored timestamp the range is the one the library reads from
    the UTC calendar date of the instant [new Date] makes of it, followed
    by a hyphen; an invalid date raises [RangeError]. *)
Lemma getDateRangeFrom_some (type : OutputType) (this : StateFile) (value : json) :
  getLastUpdated type this = Some value ->
  truthy (Some value) = true ->
  getDateRangeFrom type this =
    match Date_toISOString (Date_new value) with
    | inr iso => Return (Some (dateRanges (remove_all "-" (split_head "T" iso) ++ "-")))
    | inl e => Throw e
    end.
Proof. unfold getDateRangeFrom. now intros -> ->. Qed.

(** X17: for a stored timestamp in the date-time string format with a
    four-digit year that is date-only, or has a time of the day and the UTC
    designator [Z], the range asked for starts at the calendar date written
    in the timestamp, on every host. *)
Lemma getDateRangeFrom_designated (type : OutputType) (this : StateFile)
    (s : string) (f : DateFields) :
  getLastUpdated type this = Some (JStr s) ->
  read_fields s = Some f ->
  legal_fields f = true ->
  0 <= f_year f <= 9999 ->
  match f_time f with
  | None => True
  | Some (hh, _, _, _) => hh <= 23 /\ f_zone f = Some 0
  end ->
  getDateRangeFrom type this =
    Return (Some (dateRanges (pad 4 (f_year f) "" ++ pad 2 (f_month f) ""
                              ++ pad 2 (f_day f) "" ++ "-"))).
Proof.
  intros Hget Hread Hlegal Hy Hutc.
  assert (Hs : truthy (Some (JStr s)) = true).
  { destruct s; [discriminate Hread|reflexivity]. }
  rewrite (getDateRangeFrom_some type this (JStr s) Hget Hs).
  unfold Date_new, Date_parse. rewrite Hread, Hlegal.
  destruct f as [y m d time z]. simpl in *.
  unfold legal_fields in Hlegal. simpl in Hlegal.
  apply andb_prop in Hlegal as [Hmd Htime].
  apply andb_prop in Hmd as [Hm%within_spec Hd%within_spec].
  assert (Hex : exists t, 0 <= t < msPerDay /\
            time_of_fields (mkFields y m d time z)
              = TimeClip (MakeDate (MakeDay y (m - 1) d) t)).
  { unfold time_of_fields. simpl. destruct time as [[[[hh mm] ss] ms]|].
    - destruct Hutc as [Hh ->].
      apply orb_prop in Htime as [Ht|Ht].
      + apply andb_prop in Ht as [Ht Hms%within_spec].
        apply andb_prop in Ht as [Ht Hss%within_spec].
        apply andb_prop in Ht as [Hhh%within_spec Hmm%within_spec].
        exists (MakeTime hh mm ss ms). split; [|f_equal; f_equal; lia].
        unfold MakeTime, msPerDay, msPerHour, msPerMinute, msPerSecond. lia.
      + apply andb_prop in Ht as [Ht _]. apply andb_prop in Ht as [Ht _].
        apply andb_prop in Ht as [Ht%Z.eqb_eq _]. lia.
    - exists 0. split; [unfold msPerDay; lia|reflexivity]. }
  destruct Hex as (t & Ht & ->).
  destruct (date_of_MakeDate y m d t Hm Hd Ht) as (HY & HM & HD).
  assert (Hclip : TimeClip (MakeDate (MakeDay y (m - 1) d) t)
                  = Some (MakeDate (MakeDay y (m - 1) d) t)).
  { unfold TimeClip.
    pose proof (DayFromYear_four_digits y Hy).
    pose proof (DaysBeforeMonth_range y m d Hm Hd).
    pose proof (DaysInYear_pos y).
    assert (Hday : MakeDay y (m - 1) d = DayFromYear y + DaysBeforeMonth y (m - 1) + d - 1).
    { unfold MakeDay. cbv zeta. rewrite Z.div_small by lia. rewrite Z.mod_small by lia.
      rewrite Z.add_0_r. reflexivity. }
    rewrite Hday. unfold MakeDate, msPerDay in *.
    destruct (Z.leb_spec (Z.abs ((DayFromYear y + DaysBeforeMonth y (m - 1) + d - 1)
                                 * 86400000 + t)) 8640000000000000); [reflexivity|lia]. }
  rewrite Hclip. unfold Date_toISOString. rewrite HY, HM, HD.
  unfold year_string.
  replace ((0 <=? y) && (y <=? 9999)) with true
    by (symmetry; apply andb_true_iff; rewrite !Z.leb_le; lia).
  replace (m - 1 + 1) with m by lia.
  rewrite date_part. reflexivity.
Qed.

(** C8: without a usable [--date] and with a stored [pdf] timestamp, the
    range of the [pdf] command is the single range whose [after] bound is
    [new Date(lastUpdated)], the exact stored instant; it is built with the
    constructor of the library and not by [getDateRangeFrom], and it is the
    range handed to the application layer. *)
Theorem pdf_range_from_stored_instant (opts : PdfCmdOpts) (app : App)
    (value : json) :
  usable_date opts = None ->
  App_getLastUpdated app pdf = Some value ->
  truthy (Some value) = true ->
  PdfCmd_dateRanges opts app
    = inr (DateRanges_new [mkRange (Some (Date_new value)) None]) /\
  (forall outputPath, nonempty (output opts) = Some outputPath ->
     PdfCmd_action opts app
       = GetPdf (mkBikeLogOpts outputPath
                   (DateRanges_new [mkRange (Some (Date_new value)) None]))).
Proof.
  intros Hd Hv Ht.
  assert (Hr : PdfCmd_dateRanges opts app
               = inr (DateRanges_new [mkRange (Some (Date_new value)) None])).
  { unfold PdfCmd_dateRanges. now rewrite Hd, Hv, Ht. }
  split; [exact Hr|].
  intros outputPath Ho. unfold PdfCmd_action. now rewrite Hr, Ho.
Qed.
End DateRangeClaims.

(** C2: on the specification's own example the claim fails.  With [kml.lastUpdated] at
    [2024-12-01T23:30] on a host eight hours west of UTC,
    [getDateRangeFrom kml] asks the library for the range [20241202-]: the
    lower bound is the UTC date of the instant, the day after the calendar
    date of the stored timestamp. *)
Theorem getDateRangeFrom_evening_west_of_UTC
    (fallback : DateFallback) (lib : DateRangeLib) (path : string) :
  @getDateRangeFrom pacific_zone fallback lib kml
      (mkStateFile path (state_with kml "2024-12-01T23:30"))
    = Return (Some (dateRanges "20241202-")).
Proof. reflexivity. Qed.

(** The same timestamp on a host on UTC, and the same wall-clock time with
    the UTC designator on the western host, give the date as written. *)
Example getDateRangeFrom_evening_on_UTC
    (fallback : DateFallback) (lib : DateRangeLib) (path : string) :
  @getDateRangeFrom utc_zone fallback lib kml
      (mkStateFile path (state_with kml "2024-12-01T23:30"))
    = Return (Some (dateRanges "20241201-")).
Proof. reflexivity. Qed.

Example getDateRangeFrom_evening_designated
    (fallback : DateFallback) (lib : DateRangeLib) (path : string) :
  @getDateRangeFrom pacific_zone fallback lib kml
      (mkStateFile path (state_with kml "2024-12-01T23:30:00Z"))
    = Return (Some (dateRanges "20241201-")).
Proof. reflexivity. Qed.

(** ** The properties at work on sample data *)

(** The specification's example of C1: from an empty state, the rides of
    [2024-01-05T10:00], [2024-01-07T08:00] and [2024-01-06T23:00] on the
    channel [kml] leave [kml.lastUpdated] at [2024-01-07T08:00]. *)
Lemma updateLastUpdated_sets_latest_witness :
  getLastUpdated kml
    (@updateLastUpdated plain_codec kml january_rides
       (StateFile_new "state.json") (calm ∅)).1.2
  = Some (JStr "2024-01-07T08:00").
Proof.
  destruct (@updateLastUpdated_sets_latest plain_codec kml january_rides
              (StateFile_new "state.json") (calm ∅))
    as (i & m & this' & (Hi & Hmax & _) & Hget & _ & _ & Hthis & _).
  - discriminate.
  - reflexivity.
  - rewrite Hthis, Hget.
    specialize (Hmax 1%nat _ eq_refl).
    destruct i as [|[|[|i]]]; simpl in Hi; try discriminate;
      injection Hi as <-; first [reflexivity | discriminate Hmax].
Defined.

(** C4 at work: the disk is full when [save] opens its writer. *)
Lemma save_failure_surfaces_witness :
  (@save plain_codec (mkStateFile "state.json" (state_with kml "2024-01-07T08:00"))
     (failing ∅ disk_full)).1.1
  = Throw disk_full.
Proof.
  destruct (@save_failure_surfaces plain_codec
              (mkStateFile "state.json" (state_with kml "2024-01-07T08:00"))
              (failing ∅ disk_full) eq_refl)
    as [(e & w' & Hs & ([|[|i]] & Hi) & _) _];
    rewrite Hs; simpl in *; congruence.
Defined.

(** C9 at work: the watermark was [2024-01-01T00:00]; the disk is full when
    the rides of January are recorded; the call throws and the watermark in
    memory is [2024-01-07T08:00] all the same. *)
Lemma updateLastUpdated_not_rolled_back_witness :
  exists e this' w',
    @updateLastUpdated plain_codec kml january_rides
      (mkStateFile "state.json" (state_with kml "2024-01-01T00:00"))
      (failing ∅ disk_full) = (Throw e, this', w') /\
    getLastUpdated kml this' = Some (JStr "2024-01-07T08:00").
Proof.
  destruct (@updateLastUpdated_not_rolled_back plain_codec kml january_rides
              (mkStateFile "state.json" (state_with kml "2024-01-01T00:00"))
              (failing ∅ disk_full))
    as (e & i & m & this' & w' & Hu & (Hi & Hmax & _) & Hget).
  - discriminate.
  - reflexivity.
  - reflexivity.
  - exists e, this', w'. split; [exact Hu|]. rewrite Hget.
    specialize (Hmax 1%nat _ eq_refl).
    destruct i as [|[|[|i]]]; simpl in Hi; try discriminate;
      injection Hi as <-; first [reflexivity | discriminate Hmax].
Defined.

Lemma plain_codec_round_trips : round_trips plain_codec.
Proof. intros v _. reflexivity. Qed.

(** C6 at work: a state with both channels set, saved and loaded again. *)
Lemma save_load_round_trip_witness :
  exists w1 this2 w2,
    @save plain_codec
      (mkStateFile "state.json"
         (<["pdf" := JObj {[ "lastUpdated" := JStr "2024-03-02T09:15" ]}]>
            (state_with kml "2024-01-07T08:00")))
      (calm ∅)
    = (Return tt,
       mkStateFile "state.json"
         (<["pdf" := JObj {[ "lastUpdated" := JStr "2024-03-02T09:15" ]}]>
            (state_with kml "2024-01-07T08:00")), w1) /\
    @load plain_codec (StateFile_new "state.json") w1 = (Return tt, this2, w2) /\
    getLastUpdated kml this2 = Some (JStr "2024-01-07T08:00") /\
    getLastUpdated pdf this2 = Some (JStr "2024-03-02T09:15").
Proof.
  destruct (@save_load_round_trip plain_codec
              (mkStateFile "state.json"
                 (<["pdf" := JObj {[ "lastUpdated" := JStr "2024-03-02T09:15" ]}]>
                    (state_with kml "2024-01-07T08:00")))
              (calm ∅))
    as (w1 & this2 & w2 & Hs & Hl & _ & Hget).
  - exact plain_codec_round_trips.
  - apply UserState_serializable. intros k v Hk.
    cbn [state] in Hk. unfold state_with in Hk.
    apply lookup_insert_Some in Hk as [[<- <-]|[_ Hk]].
    + split; [now right|]. eexists. split; [reflexivity|].
      intros k' v' Hk'. apply lookup_singleton_Some in Hk' as [<- <-]. eauto.
    + apply lookup_singleton_Some in Hk as [<- <-].
      split; [now left|]. eexists. split; [reflexivity|].
      intros k' v' Hk'. apply lookup_singleton_Some in Hk' as [<- <-]. eauto.
  - reflexivity.
  - exists w1, this2, w2. rewrite !Hget. repeat split; assumption.
Defined.

(** C3 at work, the specification's corrupt file: the backing file holds a
    JSON array; [load] returns with the empty state. *)
Lemma load_never_raises_witness :
  exists w',
    @load plain_codec (StateFile_new "state.json")
      (calm {[ "state.json" := Some (JArr [JStr "kml"; JStr "pdf"] ∅) ]})
    = (Return tt, StateFile_new "state.json", w').
Proof.
  destruct (@load_never_raises plain_codec (StateFile_new "state.json")
              (calm {[ "state.json" := Some (JArr [JStr "kml"; JStr "pdf"] ∅) ]}))
    as (st & w' & Hl & _ & _ & Harr & _).
  exists w'. rewrite Hl.
  now rewrite (Harr _ _ eq_refl eq_refl eq_refl).
Defined.

(** C10 at work: the file holds the channel [kml] and a key [theme] the
    tracker knows nothing of; after [load] and [save] the file holds both. *)
Lemma load_save_keeps_unknown_keys_witness :
  exists this1 w1 w2,
    @load plain_codec (StateFile_new "state.json")
      (calm {[ "state.json" :=
                 Some (JObj (<["theme" := JStr "dark"]>
                               (state_with kml "2024-01-07T08:00"))) ]})
    = (Return tt, this1, w1) /\
    @save plain_codec this1 w1 = (Return tt, this1, w2) /\
    disk w2 !! "state.json"
      = Some (Some (JObj (<["theme" := JStr "dark"]>
                            (state_with kml "2024-01-07T08:00")))).
Proof.
  destruct (@load_save_keeps_unknown_keys plain_codec "state.json"
              (calm {[ "state.json" :=
                         Some (JObj (<["theme" := JStr "dark"]>
                                       (state_with kml "2024-01-07T08:00"))) ]})
              (Some (JObj (<["theme" := JStr "dark"]>
                             (state_with kml "2024-01-07T08:00"))))
              (<["theme" := JStr "dark"]> (state_with kml "2024-01-07T08:00")))
    as (this1 & w1 & w2 & Hl & _ & Hs & Hd & _).
  - reflexivity.
  - reflexivity.
  - reflexivity.
  - exists this1, w1, w2. repeat split; assumption.
Defined.

(** C8 at work: the watermark of [pdf] is [2024-12-01T23:30:00Z] and the
    command line has no date.  The range of the command starts at that very
    instant, half past eleven in the evening, where [getDateRangeFrom] asks
    for the range of the whole day. *)
Lemma pdf_range_from_stored_instant_witness :
  @PdfCmd_dateRanges utc_zone strict_dates symbolic_ranges
    (mkPdfCmdOpts None (Some "bikelog.xml"))
    (mkApp (mkStateFile "state.json" (state_with pdf "2024-12-01T23:30:00Z")) None)
  = inr (inr [mkRange (Some (Some 1733095800000)) None]) /\
  @getDateRangeFrom utc_zone strict_dates symbolic_ranges pdf
    (mkStateFile "state.json" (state_with pdf "2024-12-01T23:30:00Z"))
  = Return (Some (inl "20241201-")).
Proof.
  split; [|reflexivity].
  destruct (@pdf_range_from_stored_instant utc_zone strict_dates symbolic_ranges
              (mkPdfCmdOpts None (Some "bikelog.xml"))
              (mkApp (mkStateFile "state.json"
                        (state_with pdf "2024-12-01T23:30:00Z")) None)
              (JStr "2024-12-01T23:30:00Z") eq_refl eq_refl eq_refl)
    as [Hr _].
  rewrite Hr. reflexivity.
Defined.

(** * Further properties *)

(** ** Helpers *)

Lemma ltb_antisym_eq (a b : string) :
  String.ltb a b = false -> String.ltb b a = false -> a = b.
Proof.
  intros Hab Hba.
  destruct (String_as_OT.compare_spec a b) as [Heq|Hlt|Hlt].
  - exact Heq.
  - apply ltb_lt in Hlt. congruence.
  - apply ltb_lt in Hlt. congruence.
Qed.

Lemma with_lastUpdated_object (type : OutputType) (value : ISODate)
    (st props : gmap string json) :
  st !! key type = Some (JObj props) ->
  with_lastUpdated type value st
    = <[key type := JObj (<["lastUpdated" := JStr value]> props)]> st.
Proof.
  intros Hk. unfold with_lastUpdated. rewrite Hk. simpl. now rewrite Hk.
Qed.

Lemma with_lastUpdated_falsy (type : OutputType) (value : ISODate)
    (st : gmap string json) :
  truthy (st !! key type) = false ->
  with_lastUpdated type value st
    = <[key type := JObj {[ "lastUpdated" := JStr value ]}]> st.
Proof.
  intros Hk. unfold with_lastUpdated. rewrite Hk. simpl.
  rewrite lookup_insert_eq. simpl. rewrite insert_insert_eq.
  now rewrite insert_empty.
Qed.

Lemma object_or_falsy_takes_property (entry : option json) :
  object_or_falsy entry = true -> takes_property entry = true.
Proof.
  unfold object_or_falsy, takes_property.
  destruct entry as [[| | | | |]|]; simpl; intros Hb; try discriminate;
    rewrite ?Hb; reflexivity.
Qed.

(** Setting the timestamp on a plain member keeps the state writable as it
    is. *)
Lemma serializable_with_lastUpdated (type : OutputType) (value : ISODate)
    (st : gmap string json) :
  serializable (JObj st) ->
  object_or_falsy (st !! key type) = true ->
  serializable (JObj (with_lastUpdated type value st)).
Proof.
  intros Hser Hof. inversion Hser as [| | | | |props Hprops Heq]; subst.
  assert (Hc : (exists props, st !! key type = Some (JObj props))
               \/ truthy (st !! key type) = false).
  { unfold object_or_falsy in Hof.
    destruct (st !! key type) as [[| | | | |]|]; simpl in Hof |- *;
      try discriminate; eauto; right; now apply negb_true_iff in Hof. }
  destruct Hc as [(props & Hk)|Hk].
  - rewrite (with_lastUpdated_object _ _ _ _ Hk).
    constructor. intros k v Hkv.
    apply lookup_insert_Some in Hkv as [[_ <-]|[_ Hkv]]; [|eauto].
    pose proof (Hprops _ _ Hk) as Hp.
    inversion Hp as [| | | | |props' Hprops' Heq']; subst.
    constructor. intros k' v' Hkv'.
    apply lookup_insert_Some in Hkv' as [[_ <-]|[_ Hkv']]; [constructor|eauto].
  - rewrite (with_lastUpdated_falsy _ _ _ Hk).
    constructor; intros k v Hkv.
    apply lookup_insert_Some in Hkv as [[_ <-]|[_ Hkv]]; [|eauto].
    constructor; intros k' v' Hkv'.
    apply lookup_singleton_Some in Hkv' as [_ <-]; constructor.
Qed.

(** ** More on [updateLastUpdated] *)

Section TrackerExtras.
Context `{codec : JsonCodec}.

(** X1: when the member of the channel is a truthy primitive (a string, a
    non-zero number, [true]), [updateLastUpdated] on a non-empty list throws
    a [TypeError]; the state in memory, the disk, the log and the trace are
    as before: nothing is recorded and [save] is not reached. *)
Theorem updateLastUpdated_type_error (type : OutputType)
    (activities : list Activity) (this : StateFile) (w : World) :
  activities <> [] ->
  takes_property (state this !! key type) = false ->
  exists msg,
    updateLastUpdated type activities this w = (Throw (TypeError msg), this, w).
Proof.
  intros Hne Htp.
  destruct (find_mostRecent_first_latest activities Hne) as (i & m & Hm & _).
  unfold updateLastUpdated.
  destruct activities as [|a l]; [congruence|]. simpl length. simpl Nat.eqb.
  cbv iota. rewrite Hm.
  destruct this as [path st]. simpl in *.
  unfold takes_property in Htp.
  unfold bind at 1. unfold get_state at 1. simpl.
  destruct (truthy (st !! key type)) eqn:Ht; simpl in Htp; [|discriminate].
  simpl. unfold bind at 1. unfold ret at 1.
  unfold bind at 1. unfold set_lastUpdated, bind at 1, get_state. simpl.
  destruct (st !! key type) as [[| | | | |]|] eqn:He; try discriminate; simpl;
    eexists; reflexivity.
Qed.

(** X2: when the member of the channel is an object, [updateLastUpdated] on a
    non-empty list changes, in memory, nothing but the [lastUpdated] of that
    object: the other properties of the object and every other key of the
    state, known or not, are kept, whether [save] succeeds or fails. *)
Theorem updateLastUpdated_keeps_members (type : OutputType)
    (activities : list Activity) (this : StateFile) (w : World)
    (props : gmap string json) :
  activities <> [] ->
  state this !! key type = Some (JObj props) ->
  exists i m props',
    first_latest activities i m /\
    state (updateLastUpdated type activities this w).1.2 !! key type
      = Some (JObj props') /\
    props' !! "lastUpdated" = Some (JStr (startDatetimeLocal m)) /\
    (forall k, k <> "lastUpdated" -> props' !! k = props !! k) /\
    (forall k, k <> key type ->
       state (updateLastUpdated type activities this w).1.2 !! k = state this !! k).
Proof.
  intros Hne Hk.
  destruct (find_mostRecent_first_latest activities Hne) as (i & m & Hm & Hfl).
  assert (Htp : takes_property (state this !! key type) = true) by now rewrite Hk.
  rewrite (updateLastUpdated_run type activities m this w Hne Hm Htp).
  rewrite save_this. cbn [state].
  rewrite (with_lastUpdated_object _ _ _ _ Hk).
  exists i, m, (<["lastUpdated" := JStr (startDatetimeLocal m)]> props).
  split; [exact Hfl|]. split; [apply lookup_insert_eq|].
  split; [apply lookup_insert_eq|].
  split; intros k Hne'; now rewrite lookup_insert_ne by congruence.
Qed.

(** X3: the watermark is not clamped.  When every activity of a non-empty
    list is earlier than the stored timestamp, [updateLastUpdated] moves the
    timestamp in memory back to an earlier one. *)
Theorem updateLastUpdated_can_regress (type : OutputType)
    (activities : list Activity) (this : StateFile) (w : World) (stored : ISODate) :
  activities <> [] ->
  takes_property (state this !! key type) = true ->
  getLastUpdated type this = Some (JStr stored) ->
  (forall a, a ∈ activities -> String.ltb (startDatetimeLocal a) stored = true) ->
  exists earlier,
    getLastUpdated type (updateLastUpdated type activities this w).1.2
      = Some (JStr earlier) /\
    String.ltb earlier stored = true.
Proof.
  intros Hne Htp Hstored Hall.
  destruct (find_mostRecent_first_latest activities Hne) as (i & m & Hm & Hi & _).
  rewrite (updateLastUpdated_run type activities m this w Hne Hm Htp).
  rewrite save_this.
  exists (startDatetimeLocal m). split.
  - now apply getLastUpdated_with_lastUpdated.
  - apply Hall. apply list_elem_of_lookup. eauto.
Qed.

(** X4: the timestamp the loop of [updateLastUpdated] ends on does not depend
    on the order of the activities (the activity may, when two of them have
    the same timestamp). *)
Theorem find_mostRecent_order_free (l1 l2 : list Activity) :
  l1 ≡ₚ l2 ->
  startDatetimeLocal <$> find_mostRecent l1
    = startDatetimeLocal <$> find_mostRecent l2.
Proof.
  intros Hperm.
  destruct l1 as [|a1 l1'] eqn:E1.
  - apply Permutation_nil_l in Hperm. now subst.
  - rewrite <- E1 in *.
    assert (Hne1 : l1 <> []) by (subst; discriminate).
    assert (Hne2 : l2 <> []).
    { intros ->. apply Permutation_nil_r in Hperm. contradiction. }
    destruct (find_mostRecent_first_latest l1 Hne1) as (i1 & m1 & -> & Hi1 & Hmax1 & _).
    destruct (find_mostRecent_first_latest l2 Hne2) as (i2 & m2 & -> & Hi2 & Hmax2 & _).
    simpl. f_equal.
    assert (H1 : m1 ∈ l2).
    { rewrite <- Hperm. apply list_elem_of_lookup. eauto. }
    assert (H2 : m2 ∈ l1).
    { rewrite Hperm. apply list_elem_of_lookup. eauto. }
    apply list_elem_of_lookup in H1 as (j1 & Hj1).
    apply list_elem_of_lookup in H2 as (j2 & Hj2).
    apply ltb_antisym_eq; eauto.
Qed.

(** X5: a recorded watermark survives to the next run.  When the runtime's
    JSON functions round-trip, the state is one [JSON.stringify] writes
    unchanged, the member of the channel is missing, falsy or a plain object,
    and no file operation fails, then after [updateLastUpdated] on a
    non-empty list a fresh [load] from the same path gives the latest
    timestamp of the list for the channel and, under every other key, what
    the state had before. *)
Theorem watermark_survives_restart (type : OutputType)
    (activities : list Activity) (this : StateFile) (w : World) :
  round_trips codec ->
  serializable (JObj (state this)) ->
  object_or_falsy (state this !! key type) = true ->
  activities <> [] ->
  quiet 5 w = true ->
  exists i m this1 w1 this2 w2,
    first_latest activities i m /\
    updateLastUpdated type activities this w = (Return tt, this1, w1) /\
    load (StateFile_new (file this)) w1 = (Return tt, this2, w2) /\
    getLastUpdated type this2 = Some (JStr (startDatetimeLocal m)) /\
    (forall k, k <> key type -> state this2 !! k = state this !! k).
Proof.
  intros Hrt Hser Hof Hne Hq.
  pose proof (object_or_falsy_takes_property _ Hof) as Htp.
  destruct (find_mostRecent_first_latest activities Hne) as (i & m & Hm & Hfl).
  rewrite (updateLastUpdated_run type activities m this w Hne Hm Htp).
  set (st' := with_lastUpdated type (startDatetimeLocal m) (state this)).
  set (wi := informed type (startDatetimeLocal m) w).
  assert (Hqi : quiet 5 wi = true) by exact Hq.
  destruct (quiet_add 3 2 wi
              (<[file this := JSON_stringify (JObj st')]> (disk wi))
              (OpClose :: OpWrite :: OpWriter :: trace wi)
              (mkLog Debug ["Saved state file"; file this] :: log wi) Hqi)
    as (Hq3 & Hq2).
  rewrite (save_quiet (mkStateFile (file this) st') wi Hq3).
  exists i, m. eexists _, _, _, _.
  split; [exact Hfl|]. split; [reflexivity|].
  split.
  - apply (load_quiet _ _ (JSON_stringify (JObj st')) st').
    + exact Hq2.
    + simpl. apply lookup_insert_eq.
    + apply Hrt. now apply serializable_with_lastUpdated.
  - split.
    + now apply getLastUpdated_with_lastUpdated.
    + intros k Hk. simpl. now apply with_lastUpdated_other.
Qed.
End TrackerExtras.

(** ** More on [load] and [save] *)

Section StoreExtras.
Context `{codec : JsonCodec}.

Ltac fault_cases w :=
  destruct w as [d f tr lg];
  destruct f as [|[e0|] [|[e1|] [|[e2|] [|[e3|] f]]]].

(** Whatever its outcome, [save] leaves every other file as it was. *)
Lemma save_disk_frame (this : StateFile) (w : World) (path : string) :
  path <> file this ->
  disk (save this w).2 !! path = disk w !! path.
Proof.
  intros Hp. fault_cases w; cbn; try reflexivity;
    now rewrite lookup_insert_ne by congruence.
Qed.

(** X6: [load] replaces the state in memory entirely: its result is the same
    whatever the state was before, and it never writes to the disk. *)
Theorem load_forgets_and_never_writes (path : string)
    (st0 st1 : gmap string json) (w : World) :
  load (mkStateFile path st0) w = load (mkStateFile path st1) w /\
  disk (load (mkStateFile path st0) w).2 = disk w.
Proof.
  destruct w as [d f tr lg].
  unfold load, try_catch, bind, get_file, File_exists, File_readJson, file_op,
    fault_at, quiet.
  cbn [file state disk faults trace log fst snd].
  destruct (d !! path) as [t|] eqn:Hd;
    [destruct (JSON_parse t) as [[| | | | |]|] eqn:Hp|];
    destruct f as [|[e0|] [|[e1|] f]]; cbn; rewrite ?Hd; cbn; rewrite ?Hp; cbn;
    split; reflexivity.
Qed.

(** X7: [load] writes exactly one line to the log.  The line is a warning
    when a file operation failed or the content of the file did not parse,
    and a debug line otherwise: a file that is absent, and a file whose
    content is valid JSON of the wrong shape, are not reported above debug
    level. *)
Theorem load_logs_once (this : StateFile) (w : World) :
  exists entry,
    log (load this w).2 = entry :: log w /\
    (log_level entry = Warn \/ log_level entry = Debug) /\
    (log_level entry = Warn <->
       raised (fault_at 0 w) \/
       exists t, disk w !! file this = Some t /\
                 (raised (fault_at 1 w) \/ JSON_parse t = None)).
Proof.
  destruct this as [path st0]. destruct w as [d f tr lg].
  unfold load, try_catch, bind, get_file, File_exists, File_readJson, file_op,
    fault_at, quiet, raised.
  cbn [file state disk faults trace log fst snd].
  destruct (d !! path) as [t|] eqn:Hd;
    [destruct (JSON_parse t) as [[| | | | |]|] eqn:Hp|];
    destruct f as [|[e0|] [|[e1|] f]]; cbn; rewrite ?Hd; cbn; rewrite ?Hp; cbn;
    eexists; (split; [reflexivity|]); cbn;
    (split; [auto|]);
    (split;
     [ first
         [ discriminate
         | intros _;
           first
             [ left; discriminate
             | right; eexists; (split; [first [reflexivity|eassumption]|]);
               first [left; discriminate | right; first [reflexivity|eassumption]] ] ]
     | first
         [ intros _; reflexivity
         | intros [Hc|(t' & Ht' & [Hc|Hc])]; congruence ] ]).
Qed.

(** X8: [save] does not leave its writer open.  When the writer cannot be
    obtained, [save] throws that failure without any other file operation
    and with the disk as it was; once it has the writer, the last file
    operation it performs is a [close], on every path. *)
Theorem save_closes_writer (this : StateFile) (w : World) :
  match fault_at 0 w with
  | Some e =>
      exists w', save this w = (Throw e, this, w') /\
                 disk w' = disk w /\ trace w' = OpWriter :: trace w
  | None => head (trace (save this w).2) = Some OpClose
  end.
Proof.
  fault_cases w; cbn; try reflexivity; eexists; repeat split.
Qed.

(** X9: [save] reports success only when the state is on disk: if it
    returns, no file operation failed, the fields of the object are as
    before and the file of the object holds the whole state. *)
Theorem save_success_means_persisted (this this' : StateFile) (w w' : World) :
  save this w = (Return tt, this', w') ->
  this' = this /\
  quiet 3 w = true /\
  disk w' !! file this = Some (JSON_stringify (JObj (state this))).
Proof.
  intros Hs. destruct (quiet 3 w) eqn:Hq.
  - rewrite (save_quiet this w Hq) in Hs. injection Hs as <- <-.
    repeat split. simpl. apply lookup_insert_eq.
  - destruct (save_fault this w Hq) as (e & w'' & Hs' & _).
    rewrite Hs' in Hs. discriminate.
Qed.

(** X10: the tracker touches no file but its own.  [load] leaves the whole
    disk as it was; [save] and [updateLastUpdated], whatever their outcome,
    leave every file other than the state file as it was. *)
Theorem only_the_state_file_is_written (this : StateFile) (w : World)
    (path : string) :
  path <> file this ->
  disk (load this w).2 = disk w /\
  disk (save this w).2 !! path = disk w !! path /\
  (forall type activities,
     disk (updateLastUpdated type activities this w).2 !! path = disk w !! path).
Proof.
  intros Hp. split; [|split].
  - destruct (load_run this w) as (st & w' & -> & Hd & _). exact Hd.
  - now apply save_disk_frame.
  - intros type activities.
    destruct activities as [|a l] eqn:Hl; [reflexivity|]. rewrite <- Hl.
    assert (Hne : activities <> []) by (subst; discriminate).
    destruct (takes_property (state this !! key type)) eqn:Htp.
    + destruct (find_mostRecent_first_latest activities Hne) as (i & m & Hm & _).
      rewrite (updateLastUpdated_run type activities m this w Hne Hm Htp).
      now rewrite save_disk_frame.
    + destruct (updateLastUpdated_rejects type activities this w Hne Htp) as (e & ->).
      reflexivity.
Qed.
End StoreExtras.

(** ** More on the date range of a run *)

Section RangeExtras.
Context `{zone : TimeZone} `{fallback : DateFallback} `{lib : DateRangeLib}.

(** When [new Date] makes of the stored value a time of the day [t] of the
    day [d] of the month [m] of a four-digit year [y], in UTC, the range
    asked for starts at that date. *)
Lemma getDateRangeFrom_of_time (type : OutputType) (this : StateFile)
    (value : json) (y m d t : Z) :
  getLastUpdated type this = Some value ->
  truthy (Some value) = true ->
  Date_new value = TimeClip (MakeDate (MakeDay y (m - 1) d) t) ->
  0 <= y <= 9999 -> 1 <= m <= 12 -> 1 <= d <= DaysInMonth y (m - 1) ->
  0 <= t < msPerDay ->
  getDateRangeFrom type this =
    Return (Some (dateRanges (pad 4 y "" ++ pad 2 m "" ++ pad 2 d "" ++ "-"))).
Proof.
  intros Hget Htr Hnew Hy Hm Hd Ht.
  rewrite (getDateRangeFrom_some type this value Hget Htr), Hnew.
  destruct (date_of_MakeDate y m d t Hm Hd Ht) as (HY & HM & HD).
  assert (Hclip : TimeClip (MakeDate (MakeDay y (m - 1) d) t)
                  = Some (MakeDate (MakeDay y (m - 1) d) t)).
  { unfold TimeClip.
    pose proof (DayFromYear_four_digits y Hy).
    pose proof (DaysBeforeMonth_range y m d Hm Hd).
    pose proof (DaysInYear_pos y).
    assert (Hday : MakeDay y (m - 1) d = DayFromYear y + DaysBeforeMonth y (m - 1) + d - 1).
    { unfold MakeDay. cbv zeta. rewrite Z.div_small by lia. rewrite Z.mod_small by lia.
      rewrite Z.add_0_r. reflexivity. }
    rewrite Hday. unfold MakeDate, msPerDay in *.
    destruct (Z.leb_spec (Z.abs ((DayFromYear y + DaysBeforeMonth y (m - 1) + d - 1)
                                 * 86400000 + t)) 8640000000000000); [reflexivity|lia]. }
  rewrite Hclip. unfold Date_toISOString. rewrite HY, HM, HD.
  unfold year_string.
  replace ((0 <=? y) && (y <=? 9999)) with true
    by (symmetry; apply andb_true_iff; rewrite !Z.leb_le; lia).
  replace (m - 1 + 1) with m by lia.
  rewrite date_part. reflexivity.
Qed.

(** X11: the date [getDateRangeFrom] asks for is the stored date moved by
    the offset from UTC.  For a stored timestamp in the date-time string
    format with a four-digit year and a time of the day, take the time of
    the day minus the offset from UTC (the one written in the timestamp, or
    the host's when there is none): when it falls [k] days away from the
    stored day, within the month, the range starts [k] days after the stored
    date.  The date is the stored one exactly when [k] is 0. *)
Theorem getDateRangeFrom_day_shift (type : OutputType) (this : StateFile)
    (s : string) (f : DateFields) (hh mm ss ms k : Z) :
  getLastUpdated type this = Some (JStr s) ->
  read_fields s = Some f ->
  legal_fields f = true ->
  0 <= f_year f <= 9999 ->
  f_time f = Some (hh, mm, ss, ms) ->
  k * msPerDay
    <= MakeTime hh mm ss ms
       - utc_shift f (MakeDate (MakeDay (f_year f) (f_month f - 1) (f_day f))
                               (MakeTime hh mm ss ms))
    < (k + 1) * msPerDay ->
  1 <= f_day f + k <= DaysInMonth (f_year f) (f_month f - 1) ->
  getDateRangeFrom type this =
    Return (Some (dateRanges (pad 4 (f_year f) "" ++ pad 2 (f_month f) ""
                              ++ pad 2 (f_day f + k) "" ++ "-"))).
Proof.
  intros Hget Hread Hlegal Hy Htime Hk Hd.
  assert (Hs : truthy (Some (JStr s)) = true).
  { destruct s; [discriminate Hread|reflexivity]. }
  destruct f as [y m d time z]. simpl in *. subst time.
  assert (Hm : 1 <= m <= 12).
  { unfold legal_fields in Hlegal. simpl in Hlegal.
    apply andb_prop in Hlegal as [Hmd _].
    now apply andb_prop in Hmd as [Hm%within_spec _]. }
  set (tod := MakeTime hh mm ss ms) in *.
  set (shift := utc_shift _ _) in *.
  apply (getDateRangeFrom_of_time type this (JStr s) y m (d + k)
           (tod - shift - k * msPerDay)); try assumption; [|lia].
  unfold Date_new, Date_parse. rewrite Hread, Hlegal.
  unfold time_of_fields. simpl. fold tod.
  assert (Hmove : forall x,
            MakeDate (MakeDay y (m - 1) d) tod - x
            = MakeDate (MakeDay y (m - 1) (d + k)) (tod - x - k * msPerDay)).
  { intros x. unfold MakeDate, MakeDay. cbv zeta. lia. }
  unfold shift, utc_shift. simpl.
  destruct z as [offset|]; [|unfold UTC]; now rewrite Hmove.
Qed.

(** X12: a stored timestamp that [new Date] cannot read makes
    [getDateRangeFrom] throw a [RangeError] (from [toISOString]), where the
    [pdf] command, without a usable [--date], goes on with a range whose
    [after] bound is the invalid date. *)
Theorem unreadable_timestamp (this : StateFile) (value : json)
    (opts : PdfCmdOpts) (formsDataFile : option string) :
  getLastUpdated pdf this = Some value ->
  truthy (Some value) = true ->
  Date_new value = None ->
  usable_date opts = None ->
  getDateRangeFrom pdf this = Throw (RangeError "Invalid time value") /\
  PdfCmd_dateRanges opts (mkApp this formsDataFile)
    = inr (DateRanges_new [mkRange (Some None) None]).
Proof.
  intros Hget Htr Hnew Hd. split.
  - rewrite (getDateRangeFrom_some pdf this value Hget Htr), Hnew. reflexivity.
  - unfold PdfCmd_dateRanges, App_getLastUpdated. simpl.
    now rewrite Hd, Hget, Htr, Hnew.
Qed.

(** X13: a stored value that is falsy, such as the empty string, counts as
    no watermark, although [getLastUpdated] returns it: [getDateRangeFrom]
    gives no range, and the [pdf] command without a usable [--date] leaves
    with exit code 1, whatever the output options are. *)
Theorem falsy_watermark_is_no_watermark (this : StateFile)
    (opts : PdfCmdOpts) (formsDataFile : option string) :
  truthy (getLastUpdated pdf this) = false ->
  usable_date opts = None ->
  getDateRangeFrom pdf this = Return None /\
  PdfCmd_action opts (mkApp this formsDataFile) = Exit 1.
Proof.
  intros Htr Hd. split.
  - unfold getDateRangeFrom. now rewrite Htr.
  - unfold PdfCmd_action, PdfCmd_dateRanges, App_getLastUpdated. simpl.
    now rewrite Hd, Htr.
Qed.

(** X14: what the action of the [pdf] command can end in.  It calls
    [getPdf] only with an output path that is not empty, the one of the
    command line when there is one and the [formsDataFile] of the settings
    otherwise, and with the usable ranges of the command line or else the
    single range from the stored timestamp; it leaves only with exit code 1,
    and only when it has no date range or no output path. *)
Theorem pdf_action_table (opts : PdfCmdOpts) (app : App) :
  (forall pdfOpts, PdfCmd_action opts app = GetPdf pdfOpts ->
     String.eqb (bl_output pdfOpts) "" = false /\
     (nonempty (output opts) = Some (bl_output pdfOpts) \/
      nonempty (output opts) = None /\
      nonempty (app_formsDataFile app) = Some (bl_output pdfOpts)) /\
     (usable_date opts = Some (bl_date pdfOpts) \/
      usable_date opts = None /\
      exists value,
        App_getLastUpdated app pdf = Some value /\
        truthy (Some value) = true /\
        bl_date pdfOpts = DateRanges_new [mkRange (Some (Date_new value)) None])) /\
  (forall code, PdfCmd_action opts app = Exit code ->
     code = 1 /\
     (usable_date opts = None /\ truthy (App_getLastUpdated app pdf) = false \/
      nonempty (output opts) = None /\ nonempty (app_formsDataFile app) = None)).
Proof.
  assert (Hne : forall o v, nonempty o = Some v -> String.eqb v "" = false).
  { intros [v'|] v; simpl; [|discriminate].
    destruct (String.eqb v' "") eqn:E; [discriminate|]. now intros [= <-]. }
  unfold PdfCmd_action, PdfCmd_dateRanges.
  destruct (usable_date opts) as [d|] eqn:Hd;
    [|destruct (truthy (App_getLastUpdated app pdf)) eqn:Htr; cbn [negb];
      [destruct (App_getLastUpdated app pdf) as [value|] eqn:Hv; [|discriminate]|]];
    try (destruct (nonempty (output opts)) as [o|] eqn:Ho;
         [|destruct (nonempty (app_formsDataFile app)) as [o|] eqn:Hf]);
    (split; [intros x Hx|intros x Hx]); try discriminate Hx;
    injection Hx as <-; cbn [bl_output bl_date].
  - split; [eapply Hne; eassumption|]. split; [now left|now left].
  - split; [eapply Hne; eassumption|]. split; [now right|now left].
  - split; [reflexivity|]. now right.
  - split; [eapply Hne; eassumption|]. split; [now left|].
    right. split; [reflexivity|]. now exists value.
  - split; [eapply Hne; eassumption|]. split; [now right|].
    right. split; [reflexivity|]. now exists value.
  - split; [reflexivity|]. now right.
  - split; [reflexivity|]. now left.
  - split; [reflexivity|]. now left.
  - split; [reflexivity|]. now left.
Qed.
End RangeExtras.

(** ** The tracker and the command together *)

Section RunExtras.
Context `{codec : JsonCodec}.
Context `{zone : TimeZone} `{fallback : DateFallback} `{lib : DateRangeLib}.

(** X15: a first run needs [--date].  When the state file is absent, cannot
    be read, does not parse or does not hold a keyed record, then after
    [load] there is no range for either channel and the [pdf] command
    without a usable [--date] leaves with exit code 1. *)
Theorem first_run_needs_date (this : StateFile) (w : World)
    (opts : PdfCmdOpts) (formsDataFile : option string) :
  (disk w !! file this = None \/
   quiet 2 w = false \/
   exists t, disk w !! file this = Some t /\
             (JSON_parse t = None \/
              exists v, JSON_parse t = Some v /\ isDict v = None)) ->
  usable_date opts = None ->
  (forall type, getDateRangeFrom type (load this w).1.2 = Return None) /\
  PdfCmd_action opts (mkApp (load this w).1.2 formsDataFile) = Exit 1.
Proof.
  intros Hfile Hd.
  destruct (load_run this w) as (st & w' & -> & _ & Hst).
  assert (Hempty : st = ∅).
  { rewrite Hst. destruct (quiet 2 w); [|reflexivity].
    destruct Hfile as [->|[Hq|(t & -> & [->|(v & -> & Hv)])]];
      try reflexivity; try discriminate.
    destruct v; try reflexivity; discriminate. }
  clear Hst. subst st. cbn [fst snd]. split.
  - intros type. apply getDateRangeFrom_none.
    unfold getLastUpdated. cbn [state]. now rewrite lookup_empty.
  - unfold PdfCmd_action, PdfCmd_dateRanges, App_getLastUpdated, getLastUpdated.
    cbn [app_stateFile state key]. rewrite Hd, lookup_empty. reflexivity.
Qed.
End RunExtras.

Section RepeatExtras.
Context `{codec : JsonCodec}.

Lemma with_lastUpdated_takes_property (type : OutputType) (value : ISODate)
    (st : gmap string json) :
  takes_property (st !! key type) = true ->
  takes_property (with_lastUpdated type value st !! key type) = true.
Proof.
  intros Htp. unfold with_lastUpdated, takes_property in *.
  destruct (truthy (st !! key type)) eqn:Ht; simpl in *.
  - destruct (st !! key type) as [[| | | | |]|] eqn:Hk; try discriminate; simpl;
      now rewrite lookup_insert_eq.
  - rewrite lookup_insert_eq. simpl. now rewrite lookup_insert_eq.
Qed.

Lemma with_lastUpdated_array (type : OutputType) (value : ISODate)
    (st : gmap string json) (elems : list json) (named : gmap string json) :
  st !! key type = Some (JArr elems named) ->
  with_lastUpdated type value st
    = <[key type := JArr elems (<["lastUpdated" := JStr value]> named)]> st.
Proof.
  intros Hk. unfold with_lastUpdated. rewrite Hk. simpl. now rewrite Hk.
Qed.

Lemma with_lastUpdated_again (type : OutputType) (value : ISODate)
    (st : gmap string json) :
  takes_property (st !! key type) = true ->
  with_lastUpdated type value (with_lastUpdated type value st)
    = with_lastUpdated type value st.
Proof.
  intros Htp. unfold takes_property in Htp.
  destruct (truthy (st !! key type)) eqn:Ht; simpl in Htp.
  - destruct (st !! key type) as [[| | | |elems named|props]|] eqn:Hk;
      try discriminate.
    + rewrite (with_lastUpdated_array _ _ _ _ _ Hk).
      erewrite with_lastUpdated_array by apply lookup_insert_eq.
      now rewrite !insert_insert_eq.
    + rewrite (with_lastUpdated_object _ _ _ _ Hk).
      erewrite with_lastUpdated_object by apply lookup_insert_eq.
      now rewrite !insert_insert_eq.
  - rewrite (with_lastUpdated_falsy _ _ _ Ht).
    erewrite with_lastUpdated_object by apply lookup_insert_eq.
    rewrite insert_insert_eq. now rewrite insert_singleton_eq.
Qed.

(** X16: recording the same activities twice is harmless.  When the member
    of the channel can take the property, a second [updateLastUpdated] with
    the same non-empty list leaves the state in memory as the first left it,
    whatever the file operations of the two calls do. *)
Theorem updateLastUpdated_twice (type : OutputType)
    (activities : list Activity) (this : StateFile) (w w2 : World) :
  activities <> [] ->
  takes_property (state this !! key type) = true ->
  (updateLastUpdated type activities
     (updateLastUpdated type activities this w).1.2 w2).1.2
  = (updateLastUpdated type activities this w).1.2.
Proof.
  intros Hne Htp.
  destruct (find_mostRecent_first_latest activities Hne) as (i & m & Hm & _).
  rewrite (updateLastUpdated_run type activities m this w Hne Hm Htp).
  rewrite save_this.
  rewrite (updateLastUpdated_run type activities m _ w2 Hne Hm)
    by now apply with_lastUpdated_takes_property.
  rewrite save_this. cbn [file state].
  now rewrite with_lastUpdated_again.
Qed.
End RepeatExtras.

(** ** The further properties at work on sample data *)

(** X1 at work: the [kml] member of the state is the timestamp itself. *)
Lemma updateLastUpdated_type_error_witness :
  exists msg,
    @updateLastUpdated plain_codec kml january_rides
      (mkStateFile "state.json" flat_state) (calm ∅)
    = (Throw (TypeError msg), mkStateFile "state.json" flat_state, calm ∅).
Proof.
  apply (@updateLastUpdated_type_error plain_codec kml january_rides
           (mkStateFile "state.json" flat_state) (calm ∅));
    [discriminate|reflexivity].
Defined.

(** X2 at work: the [kml] member carries a note and the state a key [theme];
    both are there after the rides of January are recorded. *)
Lemma updateLastUpdated_keeps_members_witness :
  exists props',
    state (@updateLastUpdated plain_codec kml january_rides
             (mkStateFile "state.json"
                (<["theme" := JStr "dark"]>
                   {[ "kml" := JObj (<["note" := JStr "winter"]>
                                       {[ "lastUpdated" := JStr "2024-01-01T00:00" ]}) ]}))
             (calm ∅)).1.2 !! "kml" = Some (JObj props') /\
    props' !! "note" = Some (JStr "winter") /\
    state (@updateLastUpdated plain_codec kml january_rides
             (mkStateFile "state.json"
                (<["theme" := JStr "dark"]>
                   {[ "kml" := JObj (<["note" := JStr "winter"]>
                                       {[ "lastUpdated" := JStr "2024-01-01T00:00" ]}) ]}))
             (calm ∅)).1.2 !! "theme" = Some (JStr "dark").
Proof.
  destruct (@updateLastUpdated_keeps_members plain_codec kml january_rides
              (mkStateFile "state.json"
                 (<["theme" := JStr "dark"]>
                    {[ "kml" := JObj (<["note" := JStr "winter"]>
                                        {[ "lastUpdated" := JStr "2024-01-01T00:00" ]}) ]}))
              (calm ∅)
              (<["note" := JStr "winter"]>
                 {[ "lastUpdated" := JStr "2024-01-01T00:00" ]}))
    as (i & m & props' & _ & Hk & _ & Hprops & Hother).
  - discriminate.
  - reflexivity.
  - exists props'. split; [exact Hk|]. split.
    + rewrite Hprops by discriminate. reflexivity.
    + rewrite Hother by discriminate. reflexivity.
Defined.

(** X3 at work: the watermark is in January and the rides recorded are of
    December. *)
Lemma updateLastUpdated_can_regress_witness :
  exists earlier,
    getLastUpdated kml
      (@updateLastUpdated plain_codec kml december_rides
         (mkStateFile "state.json" (state_with kml "2024-01-07T08:00"))
         (calm ∅)).1.2
    = Some (JStr earlier) /\
    String.ltb earlier "2024-01-07T08:00" = true.
Proof.
  apply (@updateLastUpdated_can_regress plain_codec kml december_rides
           (mkStateFile "state.json" (state_with kml "2024-01-07T08:00"))
           (calm ∅) "2024-01-07T08:00").
  - discriminate.
  - reflexivity.
  - reflexivity.
  - intros a Ha. unfold december_rides in Ha. set_unfold in Ha.
    destruct Ha as [->|[->|[]]]; reflexivity.
Defined.

(** X4 at work: the rides of January in two orders. *)
Lemma find_mostRecent_order_free_witness :
  startDatetimeLocal <$> find_mostRecent january_rides
    = startDatetimeLocal <$> find_mostRecent january_rides_shuffled.
Proof.
  apply find_mostRecent_order_free.
  symmetry.
  exact (Permutation_cons_append
           [mkActivity 101 "2024-01-05T10:00"; mkActivity 102 "2024-01-07T08:00"]
           (mkActivity 103 "2024-01-06T23:00")).
Defined.

(** X5 at work: a first run records the rides of January; the next run
    finds the watermark. *)
Lemma watermark_survives_restart_witness :
  exists this1 w1 this2 w2,
    @updateLastUpdated plain_codec kml january_rides
      (StateFile_new "state.json") (calm ∅) = (Return tt, this1, w1) /\
    @load plain_codec (StateFile_new "state.json") w1 = (Return tt, this2, w2) /\
    getLastUpdated kml this2 = Some (JStr "2024-01-07T08:00").
Proof.
  destruct (@watermark_survives_restart plain_codec kml january_rides
              (StateFile_new "state.json") (calm ∅))
    as (i & m & this1 & w1 & this2 & w2 & (Hi & Hmax & _) & Hu & Hl & Hget & _).
  - exact plain_codec_round_trips.
  - constructor. intros k v Hk. unfold StateFile_new in Hk. cbn [state] in Hk.
    rewrite lookup_empty in Hk. discriminate.
  - reflexivity.
  - discriminate.
  - reflexivity.
  - exists this1, w1, this2, w2. split; [exact Hu|]. split; [exact Hl|].
    rewrite Hget.
    specialize (Hmax 1%nat _ eq_refl).
    destruct i as [|[|[|i]]]; simpl in Hi; try discriminate;
      injection Hi as <-; first [reflexivity | discriminate Hmax].
Defined.

(** X9 at work: [save] returns in a calm world, and the file holds the
    state. *)
Lemma save_success_means_persisted_witness :
  disk (@save plain_codec
          (mkStateFile "state.json" (state_with kml "2024-01-07T08:00"))
          (calm ∅)).2 !! "state.json"
  = Some (Some (JObj (state_with kml "2024-01-07T08:00"))).
Proof.
  destruct (@save_success_means_persisted plain_codec
              (mkStateFile "state.json" (state_with kml "2024-01-07T08:00"))
              (@save plain_codec
                 (mkStateFile "state.json" (state_with kml "2024-01-07T08:00"))
                 (calm ∅)).1.2
              (calm ∅)
              (@save plain_codec
                 (mkStateFile "state.json" (state_with kml "2024-01-07T08:00"))
                 (calm ∅)).2)
    as (_ & _ & Hd).
  - reflexivity.
  - exact Hd.
Defined.

(** X10 at work: a file of notes beside the state file. *)
Lemma only_the_state_file_is_written_witness :
  disk (@updateLastUpdated plain_codec kml january_rides
          (StateFile_new "state.json")
          (calm {[ "notes.json" := Some (JStr "call the bike shop") ]})).2
    !! "notes.json"
  = Some (Some (JStr "call the bike shop")).
Proof.
  destruct (@only_the_state_file_is_written plain_codec
              (StateFile_new "state.json")
              (calm {[ "notes.json" := Some (JStr "call the bike shop") ]})
              "notes.json")
    as (_ & _ & Hu).
  - discriminate.
  - rewrite Hu. reflexivity.
Defined.

(** X11 at work: a ride of the morning of 10 March, ten hours east of UTC,
    stored with its offset: the range starts on 9 March, on every host. *)
Lemma getDateRangeFrom_day_shift_witness :
  @getDateRangeFrom pacific_zone strict_dates symbolic_ranges kml
    (mkStateFile "state.json" (state_with kml "2024-03-10T07:15:00+10:00"))
  = Return (Some (inl "20240309-")).
Proof.
  apply (@getDateRangeFrom_day_shift pacific_zone strict_dates symbolic_ranges kml
           (mkStateFile "state.json" (state_with kml "2024-03-10T07:15:00+10:00"))
           "2024-03-10T07:15:00+10:00"
           (mkFields 2024 3 10 (Some (7, 15, 0, 0)) (Some 600))
           7 15 0 0 (-1)).
  - reflexivity.
  - reflexivity.
  - reflexivity.
  - simpl. lia.
  - reflexivity.
  - vm_compute. split; [discriminate|reflexivity].
  - vm_compute. split; discriminate.
Defined.

(** X12 at work: the stored timestamp is the word [yesterday]. *)
Lemma unreadable_timestamp_witness :
  @getDateRangeFrom utc_zone strict_dates symbolic_ranges pdf
    (mkStateFile "state.json" (state_with pdf "yesterday"))
  = Throw (RangeError "Invalid time value") /\
  @PdfCmd_dateRanges utc_zone strict_dates symbolic_ranges
    (mkPdfCmdOpts None (Some "bikelog.xml"))
    (mkApp (mkStateFile "state.json" (state_with pdf "yesterday")) None)
  = inr (inr [mkRange (Some None) None]).
Proof.
  apply (@unreadable_timestamp utc_zone strict_dates symbolic_ranges
           (mkStateFile "state.json" (state_with pdf "yesterday"))
           (JStr "yesterday")); reflexivity.
Defined.

(** X13 at work: the stored timestamp is the empty string. *)
Lemma falsy_watermark_is_no_watermark_witness :
  getLastUpdated pdf (mkStateFile "state.json" (state_with pdf "")) = Some (JStr "") /\
  @getDateRangeFrom utc_zone strict_dates symbolic_ranges pdf
    (mkStateFile "state.json" (state_with pdf "")) = Return None /\
  @PdfCmd_action utc_zone strict_dates symbolic_ranges
    (mkPdfCmdOpts None (Some "bikelog.xml"))
    (mkApp (mkStateFile "state.json" (state_with pdf "")) None) = Exit 1.
Proof.
  split; [reflexivity|].
  apply (@falsy_watermark_is_no_watermark utc_zone strict_dates symbolic_ranges
           (mkStateFile "state.json" (state_with pdf ""))); reflexivity.
Defined.

(** X15 at work: no state file yet, and no [--date]. *)
Lemma first_run_needs_date_witness :
  @PdfCmd_action utc_zone strict_dates symbolic_ranges
    (mkPdfCmdOpts None (Some "bikelog.xml"))
    (mkApp (@load plain_codec (StateFile_new "state.json") (calm ∅)).1.2 None)
  = Exit 1.
Proof.
  apply (@first_run_needs_date plain_codec utc_zone strict_dates symbolic_ranges
           (StateFile_new "state.json") (calm ∅)
           (mkPdfCmdOpts None (Some "bikelog.xml")) None);
    [left|]; reflexivity.
Defined.

(** X16 at work: the rides of January recorded twice, the second time with
    the disk full. *)
Lemma updateLastUpdated_twice_witness :
  (@updateLastUpdated plain_codec kml january_rides
     (@updateLastUpdated plain_codec kml january_rides
        (StateFile_new "state.json") (calm ∅)).1.2
     (failing ∅ disk_full)).1.2
  = (@updateLastUpdated plain_codec kml january_rides
       (StateFile_new "state.json") (calm ∅)).1.2.
Proof.
  apply (@updateLastUpdated_twice plain_codec kml january_rides
           (StateFile_new "state.json") (calm ∅) (failing ∅ disk_full));
    [discriminate|reflexivity].
Defined.

(** X17 at work: a date-only timestamp on the host west of UTC. *)
Lemma getDateRangeFrom_designated_witness :
  @getDateRangeFrom pacific_zone strict_dates symbolic_ranges kml
    (mkStateFile "state.json" (state_with kml "2024-12-01"))
  = Return (Some (inl "20241201-")).
Proof.
  apply (@getDateRangeFrom_designated pacific_zone strict_dates symbolic_ranges kml
           (mkStateFile "state.json" (state_with kml "2024-12-01"))
           "2024-12-01" (mkFields 2024 12 1 None None)).
  - reflexivity.
  - reflexivity.
  - reflexivity.
  - simpl. lia.
  - exact I.
Defined.
